(** * GoClash: the terminal battle simulator of [main.go]

    A shallow embedding of the combat state ([applyDamage],
    [isKingTowerDestroyed]), the damage model ([calculateDamage]), the
    opponent policy ([simulateEnemyTurn]) and the event loop of [playGame],
    followed by the properties of these functions.

    Conventions.
    - Go's [int], on a 64-bit platform, is a two's complement integer of 64
      bits: it is a [Z] and every arithmetic operation is wrapped by
      [GoInt.wrap].
    - Go's [float64] is IEEE 754 binary64: it is Rocq's primitive [float],
      whose operations round to nearest, ties to even, as Go's do.
    - A slice is a [list]; writing through the slice pointer at index [i] is
      the list update [<[i := _]>], and the function returns the new slice
      next to its result.
    - The global random source [rand] and the wall clock are inputs: a tape of
      raw draws that is threaded through the functions that draw from it, and
      the elapsed time observed at the end of a loop iteration. *)

From Stdlib Require Import ZArith Floats String Ascii List Bool Lia.
From Stdlib Require Import DecimalString DecimalPos.
From stdpp Require Import base option list strings gmap.

Set Warnings "-inexact-float".
Open Scope Z_scope.

(** ** Go's [int] *)

Module GoInt.

Definition wrap (z : Z) : Z := (z + 2 ^ 63) mod 2 ^ 64 - 2 ^ 63.

Definition add (a b : Z) : Z := wrap (a + b).
Definition sub (a b : Z) : Z := wrap (a - b).
Definition mul (a b : Z) : Z := wrap (a * b).

Definition in_range (z : Z) : Prop := - 2 ^ 63 <= z < 2 ^ 63.

(** The verb [%d] of [fmt]: the decimal digits, with a minus sign on a
    negative number. *)
Definition format (z : Z) : string := NilZero.string_of_int (Z.to_int z).

(** [max] and [min] of main.go. *)
Definition max (a b : Z) : Z := if b <? a then a else b.
Definition min (a b : Z) : Z := if a <? b then a else b.

End GoInt.

(** ** Data model *)

(** [Tower]: the field [Type] of the source is [Type_] here. *)
Record Tower := mkTower {
  Type_ : string;
  HP : Z;
  ATK : Z;
  DEF : Z;
  CRIT : float;
  MaxHP : Z
}.

(** The assignment [tower.HP = hp]. *)
Definition setHP (tower : Tower) (hp : Z) : Tower :=
  {| Type_ := Type_ tower; HP := hp; ATK := ATK tower; DEF := DEF tower;
     CRIT := CRIT tower; MaxHP := MaxHP tower |}.

Record CardStats := mkCardStats {
  ElixirCost : Z;
  BaseDamage : Z;
  HitPoints : Z;
  CritChance : float
}.

(** Modelled from the spec: [clash.Card] is declared in players.go, which is
    not among the sources. The specification gives a card a name and a
    level; main.go reads the fields [Name] (the key into the catalogue) and
    [Level] (printed with [%d] and used in [int] arithmetic). *)
Record Card := mkCard {
  Name : string;
  Level : Z
}.

Record GameState := mkGameState {
  PlayerTowers : list Tower;
  EnemyTowers : list Tower;
  PlayerElixir : float;
  EnemyElixir : float
}.

(** ** Combat state: [applyDamage] and [isKingTowerDestroyed] *)

Definition targetOrder : list string :=
  ["Guard Tower 1"; "Guard Tower 2"; "King Tower"]%string.

(** The inner loop over the towers with their indices: the index and the value
    of the first tower of type [targetType] with [HP > 0], counting from [i]. *)
Fixpoint findTower (targetType : string) (towers : list Tower) (i : nat)
  : option (nat * Tower) :=
  match towers with
  | [] => None
  | tower :: rest =>
      if String.eqb (Type_ tower) targetType && (0 <? HP tower)
      then Some (i, tower)
      else findTower targetType rest (S i)
  end.

(** The hit points after the statement [HP -= damage] and the clamp at 0. *)
Definition damagedHP (hp damage : Z) : Z :=
  let hp' := GoInt.sub hp damage in
  if hp' <? 0 then 0 else hp'.

Definition descriptor (type : string) (hp : Z) : string :=
  type +:+ " (HP now " +:+ GoInt.format hp +:+ ")".

(** The body of the inner [if]: the tower at index [i] is damaged and the
    descriptor is built from the loop variable [tower] and the new value. *)
Definition hitTower (towers : list Tower) (i : nat) (tower : Tower) (damage : Z)
  : list Tower * string :=
  let hp := damagedHP (HP tower) damage in
  (<[i := setHP tower hp]> towers, descriptor (Type_ tower) hp).

(** The outer loop [for _, targetType := range targetOrder]. *)
Fixpoint applyDamageFrom (order : list string) (towers : list Tower) (damage : Z)
  : list Tower * string :=
  match order with
  | [] => (towers, "No towers left"%string)
  | targetType :: order' =>
      match findTower targetType towers 0 with
      | Some (i, tower) => hitTower towers i tower damage
      | None => applyDamageFrom order' towers damage
      end
  end.

Definition applyDamage (towers : list Tower) (damage : Z) : list Tower * string :=
  applyDamageFrom targetOrder towers damage.

Definition isKingTowerDestroyed (towers : list Tower) : bool :=
  existsb (fun tower => String.eqb (Type_ tower) "King Tower" && (HP tower <=? 0))
          towers.

(** The towers of a side at the start of a battle. *)
Definition initialTowers : list Tower :=
  [ mkTower "Guard Tower 1" 1000 300 100 0.05 1000;
    mkTower "Guard Tower 2" 1000 300 100 0.05 1000;
    mkTower "King Tower" 2000 500 300 0.1 2000 ].

(** The towers of a side once all of them are destroyed. *)
Definition destroyedTowers : list Tower :=
  [ mkTower "Guard Tower 1" 0 300 100 0.05 1000;
    mkTower "Guard Tower 2" 0 300 100 0.05 1000;
    mkTower "King Tower" 0 500 300 0.1 2000 ].

(** ** Go's [float64] *)

Module GoFloat.

(** The conversion [float64(n)] of an [int]: the nearest binary64 number. *)
Definition of_int (n : Z) : float :=
  SF2Prim (binary_normalize 53 1024 n 0 false).

(** The integer part of a finite number, rounded towards zero. *)
Definition trunc (f : float) : option Z :=
  match Prim2SF f with
  | S754_zero _ => Some 0
  | S754_finite s m e =>
      let a := if 0 <=? e then Z.pos m * 2 ^ e else Z.pos m / 2 ^ (- e) in
      Some (if s then - a else a)
  | S754_infinity _ | S754_nan => None
  end.


(** The conversion [int(f)]: the integer part when it is an [int]; Go
    leaves the result implementation-dependent otherwise, and
    [unrepresentable] stands for what the platform yields then. *)
Definition to_int (unrepresentable : float -> Z) (f : float) : Z :=
  match trunc f with
  | Some z => if (- 2 ^ 63 <=? z) && (z <? 2 ^ 63) then z else unrepresentable f
  | None => unrepresentable f
  end.

(** On amd64 the conversion instruction yields the least [int] for a number
    without an [int] value. *)
Definition amd64 : float -> Z := fun _ => - 2 ^ 63.

(** [minFloat] of main.go. *)
Definition minFloat (a b : float) : float :=
  if (a <? b)%float then a else b.

End GoFloat.

(** ** The random source

    [math/rand] is a stream of raw non-negative numbers; [rand.Intn(n)]
    reduces the next one to [0, n) and [rand.Float64()] divides the next one,
    reduced to 53 bits, by [2 ^ 53]. Every outcome of a draw is the image of
    some raw number, so a statement about all tapes is one about all
    outcomes. *)

Definition Rand := list Z.

Definition nextRaw (r : Rand) : Z * Rand :=
  match r with
  | [] => (0, [])
  | x :: r' => (x, r')
  end.

Definition Intn (n : Z) (r : Rand) : Z * Rand :=
  let '(x, r') := nextRaw r in (x mod n, r').

Definition Float64 (r : Rand) : float * Rand :=
  let '(x, r') := nextRaw r in
  ((GoFloat.of_int (x mod 2 ^ 53) / GoFloat.of_int (2 ^ 53))%float, r').

(** ** The card catalogue *)

Definition cardDatabase : gmap string CardStats :=
  list_to_map
  [ ("Giant"%string,         mkCardStats 5 140 2500 0.05);
    ("Musketeer"%string,     mkCardStats 4 100 600 0.10);
    ("Fireball"%string,      mkCardStats 3 200 0 0.15);
    ("Archers"%string,       mkCardStats 3 120 350 0.08);
    ("Knight"%string,        mkCardStats 3 200 800 0.08);
    ("Arrows"%string,        mkCardStats 2 100 0 0.10);
    ("Goblin Barrel"%string, mkCardStats 3 60 150 0.07);
    ("Minions"%string,       mkCardStats 3 70 200 0.09) ].

(** The statistics [playGame] uses for a card of the player: the entry of the
    catalogue, or the fallback entry when [exists] is false. *)
Definition playerStats (card : Card) : CardStats :=
  match cardDatabase !! Name card with
  | Some stats => stats
  | None => mkCardStats 3 50 100 0.05
  end.

(** The statistics [simulateEnemyTurn] uses: its fallback literal sets
    [BaseDamage] and [CritChance] only. *)
Definition enemyStats (card : Card) : CardStats :=
  match cardDatabase !! Name card with
  | Some stats => stats
  | None => mkCardStats 0 50 0 0.05
  end.

(** ** Damage model: [calculateDamage] *)

(** The loop that picks the crit chance of the first tower with [HP > 0],
    starting from the default [towerCritChance]. *)
Fixpoint firstTowerCrit (towerCritChance : float) (targetTowers : list Tower)
  : float :=
  match targetTowers with
  | [] => towerCritChance
  | tower :: rest =>
      if 0 <? HP tower then CRIT tower else firstTowerCrit towerCritChance rest
  end.

(** The value of [critMultiplier] after the two [if] statements. *)
Definition critMultiplier (cardCrit towerCrit : bool) : float :=
  let m := 1.0%float in
  let m := if cardCrit then (m * 1.5)%float else m in
  let m := if towerCrit then (m * 1.2)%float else m in
  m.

Section Platform.

(** What [int(f)] yields on this platform when [f] has no [int] value. *)
Variable unrepresentable : float -> Z.

(** The last two lines of [calculateDamage]. *)
Definition totalDamage (damage randomFactor : Z) (cardCrit towerCrit : bool) : Z :=
  GoInt.max 1
    (GoFloat.to_int unrepresentable
       (GoFloat.of_int (GoInt.add damage randomFactor)
        * critMultiplier cardCrit towerCrit)%float).

Definition calculateDamage (card : Card) (stats : CardStats)
    (targetTowers : list Tower) (r : Rand) : (Z * bool * bool) * Rand :=
  let damage :=
    GoInt.add (BaseDamage stats) (GoInt.mul (GoInt.sub (Level card) 1) 10) in
  let '(n, r) := Intn 21 r in
  let randomFactor := GoInt.sub n 10 in
  let '(u, r) := Float64 r in
  let cardCrit := (u <? CritChance stats)%float in
  let towerCritChance := firstTowerCrit 0.05 targetTowers in
  let '(u', r) := Float64 r in
  let towerCrit := (u' <? towerCritChance)%float in
  ((totalDamage damage randomFactor cardCrit towerCrit, cardCrit, towerCrit), r).

(** ** Opponent policy: [simulateEnemyTurn] *)

Definition len {A} (s : list A) : Z := Z.of_nat (length s).

(** The index expression [deck[i]]; every use below is behind a range
    check, and [deck_index_lookup] shows that it reads an element. *)
Definition index (deck : list Card) (i : Z) : Card :=
  default (mkCard "" 0) (deck !! Z.to_nat i).

Definition simulateEnemyTurn (deck : list Card) (enemyElixir : float)
    (opponentName : string) (targetTowers : list Tower) (r : Rand)
  : (Z * bool * bool * string) * Rand :=
  if (enemyElixir <? 3)%float || (len deck =? 0) then
    ((0, false, false,
      opponentName +:+ " skipped turn (not enough elixir)"), r)
  else
    let '(i, r) := Intn (len deck) r in
    let card := index deck i in
    let stats := enemyStats card in
    let '((damage, cardCrit, towerCrit), r) :=
      calculateDamage card stats targetTowers r in
    let action :=
      opponentName +:+ " used " +:+ Name card +:+ " (Level "
        +:+ GoInt.format (Level card) +:+ ")" in
    ((damage, cardCrit, towerCrit, action), r).

(** ** Reading a choice: [parseInt]

    [fmt.Sscanf(s, "%d", &n)] skips leading white space, reads an optional
    sign and the longest run of decimal digits, and hands the token to
    [strconv.ParseInt] in base 10. What follows the token is not looked at. Only ASCII white space is
    recognised here; the engine passes a line that [strings.TrimSpace] has
    already trimmed. *)

Inductive ScanError :=
| UnexpectedEOF
| UnexpectedNewline
| ExpectedInteger
| RangeError.

Definition code (c : ascii) : nat := nat_of_ascii c.

Definition isNewline (c : ascii) : bool := Nat.eqb (code c) 10.
Definition isSpace (c : ascii) : bool :=
  Nat.eqb (code c) 32 || (Nat.leb 9 (code c) && Nat.leb (code c) 13).
Definition isSign (c : ascii) : bool :=
  Nat.eqb (code c) 43 || Nat.eqb (code c) 45.
Definition isDecimal (c : ascii) : bool :=
  Nat.leb 48 (code c) && Nat.leb (code c) 57.

Fixpoint SkipSpace (s : string) : string + ScanError :=
  match s with
  | EmptyString => inl EmptyString
  | String c rest =>
      if isNewline c then inr UnexpectedNewline
      else if isSpace c then SkipSpace rest
      else inl s
  end.

(** The run of characters of the number at the head of [s]. *)
Fixpoint scanDigits (s : string) : list ascii :=
  match s with
  | EmptyString => []
  | String c rest =>
      if isDecimal c then c :: scanDigits rest else []
  end.

Definition digitsValue (digits : list ascii) : Z :=
  fold_left (fun acc c => acc * 10 + (Z.of_nat (code c) - 48)) digits 0.

(** [strconv.ParseInt(tok, 10, 64)] on a sign and a run of digits. *)
Definition ParseInt (negative : bool) (digits : list ascii) : Z + ScanError :=
  let un := digitsValue digits in
  let cutoff := if negative then 2 ^ 63 else 2 ^ 63 - 1 in
  if cutoff <? un then inr RangeError
  else inl (if negative then - un else un).

(** The number at the head of [s]: an optional sign and the digits. *)
Definition scanNumber (s : string) : Z + ScanError :=
  match s with
  | EmptyString => inr UnexpectedEOF
  | String c rest =>
      let signed := isSign c in
      let digits := scanDigits (if signed then rest else s) in
      match (if signed then rest else s), digits with
      | EmptyString, _ => inr UnexpectedEOF
      | _, [] => inr ExpectedInteger
      | _, _ => ParseInt (signed && Nat.eqb (code c) 45) digits
      end
  end.

Definition scanInt (s : string) : Z + ScanError :=
  match SkipSpace s with
  | inr e => inr e
  | inl s' => scanNumber s'
  end.

(** [parseInt]: the number, which stays 0 on an error, and the error. *)
Definition parseInt (s : string) : Z * option ScanError :=
  match scanInt s with
  | inl n => (n, None)
  | inr e => (0, Some e)
  end.

(** ** The input reader

    The goroutine of [playGame]: for each line it sends the trimmed text on
    [inputChan] and then, when the text is ["0"], sends on [quitChan] and
    returns. Both channels are unbuffered, so the engine receives the
    messages of the reader in the order in which they are sent.
    [strings.TrimSpace] is a parameter. *)

Variable TrimSpace : string -> string.

Inductive Message :=
| ToInputChan (input : string)
| ToQuitChan.

Fixpoint reader (lines : list string) : list Message :=
  match lines with
  | [] => []
  | line :: rest =>
      let input := TrimSpace line in
      ToInputChan input ::
        (if String.eqb input "0" then [ToQuitChan] else reader rest)
  end.

(** ** Battle engine: the loop of [playGame] *)

(** The four [return] statements of the loop, named after the outcome each
    one records in the replay. *)
Inductive Outcome := PlayerWin | OpponentWin | Surrender | Draw.

(** The cases of the [select] statement. *)
Inductive Event :=
| QuitChan
| InputChan (input : string)
| ElixirTick
| EnemyActionTick.

(** What the loop writes to the terminal. [Display] is [clearScreen]
    followed by [displayGameState]. The listing of the deck that precedes
    the loop changes nothing and is left out. *)
Inductive Report :=
| Println (text : string)
| NotEnoughElixir (need : Z) (have : float)
| Display (state : GameState).

(** The variables of [playGame] that the loop changes, with the random
    source; a ticker is [true] until its [Stop]. *)
Record Battle := mkBattle {
  state : GameState;
  Actions : list string;
  rand : Rand;
  elixirTick : bool;
  enemyActionTick : bool
}.

(** The opponent handed to [playGame]: [nil], a [MockPlayer] with its deck,
    or a value of another type. In test mode [main] passes [nil] or a
    [MockPlayer] only; the type assertion of the source would panic on
    another value there, where [enemyDeck] falls back to the player's deck. *)
Inductive Opponent :=
| NoOpponent
| MockOpponent (CurrentDeck : list Card)
| OtherOpponent.

(** The arguments of [playGame] that the loop reads. *)
Record Config := mkConfig {
  CurrentDeck : list Card;
  opponent : Opponent;
  opponentName : string;
  isTestMode : bool
}.

Definition enemyDeck (cfg : Config) : list Card :=
  match isTestMode cfg, opponent cfg with
  | true, MockOpponent deck => deck
  | _, _ => CurrentDeck cfg
  end.

Definition critText (cardCrit towerCrit : bool) : string :=
  if cardCrit && towerCrit then " (Double CRIT)"
  else if cardCrit then " (Card CRIT)"
  else if towerCrit then " (Tower CRIT)"
  else "".

(** The test [err != nil]. *)
Definition isError (err : option ScanError) : bool :=
  match err with
  | Some _ => true
  | None => false
  end.

Definition newline : string := String (ascii_of_nat 10) "".

Definition invalidChoice (cfg : Config) : string :=
  "Invalid choice. Please select a number from 1 to "
    +:+ GoInt.format (len (CurrentDeck cfg)).

Definition initialState : GameState :=
  mkGameState initialTowers initialTowers 10.0 10.0.

Definition initialBattle (r : Rand) : Battle :=
  mkBattle initialState [] r true true.

Definition setState (b : Battle) (st : GameState) : Battle :=
  mkBattle st (Actions b) (rand b) (elixirTick b) (enemyActionTick b).

Definition setRand (b : Battle) (r : Rand) : Battle :=
  mkBattle (state b) (Actions b) r (elixirTick b) (enemyActionTick b).

(** [replay.Actions = append(replay.Actions, action)]. *)
Definition record (b : Battle) (action : string) : Battle :=
  mkBattle (state b) (Actions b ++ [action]) (rand b)
           (elixirTick b) (enemyActionTick b).

(** [elixirTick.Stop(); enemyActionTick.Stop()]. *)
Definition stopTickers (b : Battle) : Battle :=
  mkBattle (state b) (Actions b) (rand b) false false.

(** How a case of the [select] ends: with [continue], by falling through to
    the draw check, or with [return]. *)
Inductive Branch :=
| Continue
| FallThrough
| Return (o : Outcome).

Definition onQuit (b : Battle) : Battle * list Report * Branch :=
  (stopTickers (record b "Player surrendered"),
   [Println "You surrendered!"], Return Surrender).

Definition onInput (cfg : Config) (b : Battle) (input : string)
  : Battle * list Report * Branch :=
  let '(choice, err) := parseInt input in
  if isError err || (choice <? 1) || (len (CurrentDeck cfg) <? choice) then
    (b, [Println (invalidChoice cfg)], Continue)
  else
    let selectedCard := index (CurrentDeck cfg) (choice - 1) in
    let stats := playerStats selectedCard in
    let st := state b in
    if (PlayerElixir st <? GoFloat.of_int (ElixirCost stats))%float then
      (b, [NotEnoughElixir (ElixirCost stats) (PlayerElixir st)], Continue)
    else
      let '((damage, cardCrit, towerCrit), r) :=
        calculateDamage selectedCard stats (EnemyTowers st) (rand b) in
      let '(towers, result) := applyDamage (EnemyTowers st) damage in
      let st :=
        mkGameState (PlayerTowers st) towers
          (PlayerElixir st - GoFloat.of_int (ElixirCost stats))%float
          (EnemyElixir st) in
      let text :=
        " used " +:+ Name selectedCard +:+ " (Level "
          +:+ GoInt.format (Level selectedCard) +:+ ") dealing "
          +:+ GoInt.format damage +:+ " damage"
          +:+ critText cardCrit towerCrit +:+ " to " +:+ result in
      let b := record (setState (setRand b r) st) ("Player" +:+ text) in
      let out := [Display st; Println ("You" +:+ text +:+ "!")] in
      if isKingTowerDestroyed (EnemyTowers st) then
        (stopTickers (record b "Player won the match"),
         out ++ [Println (newline +:+
            "Congratulations! You destroyed the opponent's King Tower!")],
         Return PlayerWin)
      else (b, out, FallThrough).

Definition prompt : string :=
  "Select a card to attack (enter number from 1 to 8, or 0 to surrender): ".

Definition onElixirTick (b : Battle) : Battle * list Report * Branch :=
  let st := state b in
  let st :=
    mkGameState (PlayerTowers st) (EnemyTowers st)
      (GoFloat.minFloat (PlayerElixir st + 1.0) 10.0)%float
      (GoFloat.minFloat (EnemyElixir st + 1.0) 10.0)%float in
  (setState b st, [Display st; Println prompt], FallThrough).

Definition onEnemyActionTick (cfg : Config) (b : Battle)
  : Battle * list Report * Branch :=
  let st := state b in
  if negb (isKingTowerDestroyed (PlayerTowers st)) then
    let '((enemyDamage, cardCrit, towerCrit, enemyAction), r) :=
      simulateEnemyTurn (enemyDeck cfg) (EnemyElixir st) (opponentName cfg)
        (PlayerTowers st) (rand b) in
    let b := setRand b r in
    let '(b, out) :=
      if 0 <? enemyDamage then
        let '(towers, result) := applyDamage (PlayerTowers st) enemyDamage in
        let st :=
          mkGameState towers (EnemyTowers st) (PlayerElixir st)
            (EnemyElixir st - 3)%float in
        let text :=
          " dealing " +:+ GoInt.format enemyDamage +:+ " damage"
            +:+ critText cardCrit towerCrit +:+ " to " +:+ result in
        (record (setState b st) (enemyAction +:+ text),
         [Display st;
          Println ("Opponent " +:+ opponentName cfg +:+ " used a card"
                     +:+ text +:+ "!")])
      else (b, []) in
    if isKingTowerDestroyed (PlayerTowers (state b)) then
      (stopTickers (record b "Opponent won the match"),
       out ++ [Println (newline +:+ "You lost! Your King Tower was destroyed.")],
       Return OpponentWin)
    else (b, out, FallThrough)
  else (b, [], FallThrough).

Definition selectCase (cfg : Config) (b : Battle) (ev : Event)
  : Battle * list Report * Branch :=
  match ev with
  | QuitChan => onQuit b
  | InputChan input => onInput cfg b input
  | ElixirTick => onElixirTick b
  | EnemyActionTick => onEnemyActionTick cfg b
  end.

(** [3 * time.Minute] in nanoseconds, the unit of [time.Duration]. *)
Definition threeMinutes : Z := 3 * 60 * 1000000000.

(** One iteration of the loop: the selected case and, unless the case ended
    with [continue] or [return], the draw check on [since], the value of
    [time.Since(startTime)] at that point. *)
Definition iteration (cfg : Config) (b : Battle) (ev : Event) (since : Z)
  : Battle * list Report * option Outcome :=
  let '(b, out, branch) := selectCase cfg b ev in
  match branch with
  | Continue => (b, out, None)
  | Return o => (b, out, Some o)
  | FallThrough =>
      if threeMinutes <? since then
        (stopTickers (record b "Match ended in a draw"),
         out ++ [Println (newline +:+ "Match ended! Draw.")], Some Draw)
      else (b, out, None)
  end.

(** The loop on a schedule: the events in the order in which the [select]
    receives them, each with the elapsed time read after it. The loop stops
    at the first [return]; [None] means that it is still waiting when the
    schedule ends. *)
Fixpoint run (cfg : Config) (b : Battle) (schedule : list (Event * Z))
  : Battle * list Report * option Outcome :=
  match schedule with
  | [] => (b, [], None)
  | (ev, since) :: schedule' =>
      match iteration cfg b ev since with
      | (b', out, Some o) => (b', out, Some o)
      | (b', out, None) =>
          let '(b'', out', o) := run cfg b' schedule' in
          (b'', out ++ out', o)
      end
  end.

Definition playGame (cfg : Config) (r : Rand) (schedule : list (Event * Z))
  : Battle * list Report * option Outcome :=
  run cfg (initialBattle r) schedule.

(** The events that a run of the reader can deliver: the messages of the
    schedule, in order, are the first messages the reader sends. *)
Definition delivered (ev : Event) : option Message :=
  match ev with
  | QuitChan => Some ToQuitChan
  | InputChan input => Some (ToInputChan input)
  | ElixirTick | EnemyActionTick => None
  end.

Definition fromReader (lines : list string) (schedule : list (Event * Z)) : Prop :=
  omap (fun '(ev, _) => delivered ev) schedule `prefix_of` reader lines.

(** ** Player tags *)

(** [NormaliseTag] of client.go: the tag itself when its first byte is [#],
    the tag behind a [#] otherwise. *)
Definition NormaliseTag (tag : string) : string :=
  match tag with
  | String c _ => if Ascii.eqb c "#" then tag else String "#" tag
  | EmptyString => String "#" tag
  end.

(** [strings.Replace(s, old, new, -1)] for an [old] that is not empty: the
    occurrences of [old] are replaced from the left, each search starting
    behind the previous occurrence. [skip] counts the bytes of an occurrence
    that are still to be passed over. *)
Fixpoint replaceFrom (old new : string) (skip : nat) (s : string) : string :=
  match s with
  | EmptyString => EmptyString
  | String c rest =>
      match skip with
      | S skip' => replaceFrom old new skip' rest
      | O =>
          if String.prefix old s
          then new +:+ replaceFrom old new (String.length old - 1) rest
          else String c (replaceFrom old new 0 rest)
      end
  end.

Definition Replace (s old new : string) : string := replaceFrom old new 0 s.

(** [old] occurs in [s]. *)
Fixpoint occurs (old s : string) : bool :=
  String.prefix old s ||
  match s with
  | EmptyString => false
  | String _ rest => occurs old rest
  end.

(** The tag that [main] keeps after reading it, and the tag that it compares
    with the tags of player.json in test mode. *)
Definition escapeTag (playerTag : string) : string := Replace playerTag "#" "%23".
Definition unescapeTag (playerTag : string) : string := Replace playerTag "%23" "#".

(** The search of [main] through the mock players in test mode, on their
    tags: the first tag equal to the unescaped tag. *)
Fixpoint findMock (tags : list string) (playerTag : string) : option string :=
  match tags with
  | [] => None
  | tag :: tags' =>
      if String.eqb tag (unescapeTag playerTag) then Some tag
      else findMock tags' playerTag
  end.

(** ** Sample data *)

Definition sampleDeck : list Card :=
  [ mkCard "Giant" 1; mkCard "Musketeer" 1; mkCard "Fireball" 1;
    mkCard "Archers" 1; mkCard "Knight" 1; mkCard "Arrows" 1;
    mkCard "Goblin Barrel" 1; mkCard "Minions" 1 ].

Definition sampleConfig : Config :=
  mkConfig sampleDeck NoOpponent "Default Enemy" false.

(** A deck whose single card destroys any tower with one hit. *)
Definition veteranConfig : Config :=
  mkConfig [mkCard "Knight" 1001] NoOpponent "Default Enemy" false.

(** Raw draws: [noCrit] yields the [Float64] value 0.5, [between] the value
    0.0625, which lies between the crit chance of a guard tower and that of
    the King Tower. *)
Definition noCrit : Z := 2 ^ 52.
Definition between : Z := 2 ^ 49.

(** The draws of three plays without jitter and without crit. *)
Definition veteranTape : Rand :=
  [10; noCrit; noCrit; 10; noCrit; noCrit; 10; noCrit; noCrit].

(** A battle in which each side has 2 units of elixir left. *)
Definition lowElixir : Battle :=
  mkBattle (mkGameState initialTowers initialTowers 2 2) [] [] true true.

(** ** Specification vocabulary *)

(** No tower of type [ty] has hit points left. *)
Definition noneAlive (ty : string) (towers : list Tower) : Prop :=
  forall u, u ∈ towers -> Type_ u = ty -> HP u <= 0.

(** [t], at index [i], is the first tower of type [ty] with [HP > 0]. *)
Definition firstAlive (ty : string) (towers : list Tower) (i : nat) (t : Tower)
  : Prop :=
  towers !! i = Some t /\ Type_ t = ty /\ 0 < HP t /\
  forall j u, (j < i)%nat -> towers !! j = Some u -> Type_ u = ty -> HP u <= 0.

(** [t], at index [i], is the first tower with [HP > 0] in the order
    Guard Tower 1, Guard Tower 2, King Tower: its type is in the order, no
    tower of an earlier type has hit points left, and it is the first such
    tower of its own type. *)
Definition target (towers : list Tower) (i : nat) (t : Tower) : Prop :=
  exists k,
    targetOrder !! k = Some (Type_ t) /\
    (forall k' ty, (k' < k)%nat -> targetOrder !! k' = Some ty ->
                   noneAlive ty towers) /\
    firstAlive (Type_ t) towers i t.

(** The towers of a side: one of each type, in the fixed order. *)
Definition side (towers : list Tower) : Prop :=
  Type_ <$> towers = targetOrder.

(** The three draws of [calculateDamage], in the order of the calls. *)
Definition jitterDraw (r : Rand) : Z := GoInt.sub (Intn 21 r).1 10.
Definition cardDraw (r : Rand) : float := (Float64 (Intn 21 r).2).1.
Definition towerDraw (r : Rand) : float :=
  (Float64 (Float64 (Intn 21 r).2).2).1.

(** [e] is the binary64 number of the whole number [n] of elixir units,
    between 0 and 10. *)
Definition elixirLevel (e : float) (n : Z) : Prop :=
  0 <= n <= 10 /\ e = GoFloat.of_int n.

(** Both pools hold a whole number of units between 0 and 10. *)
Definition elixirOk (st : GameState) : Prop :=
  (exists n, elixirLevel (PlayerElixir st) n) /\
  (exists n, elixirLevel (EnemyElixir st) n).

(** A line is a valid choice when [parseInt] reads a number between 1 and
    the size of the deck from it. *)
Definition validChoice (cfg : Config) (input : string) (choice : Z) : Prop :=
  parseInt input = (choice, None) /\ 1 <= choice <= len (CurrentDeck cfg).

Definition selected (cfg : Config) (choice : Z) : Card :=
  index (CurrentDeck cfg) (choice - 1).

(** Both sides keep their three towers in the fixed order and both pools
    hold a whole number of units between 0 and 10. *)
Definition wellFormed (st : GameState) : Prop :=
  side (PlayerTowers st) /\ side (EnemyTowers st) /\ elixirOk st.

(** ** Further vocabulary *)

(** What the platform yields for a number without an [int] value is itself
    an [int]. *)
Definition platformOk : Prop :=
  forall f, GoInt.in_range (unrepresentable f).

(** The replay entry that each [return] statement of the loop appends. *)
Definition outcomeEntry (o : Outcome) : string :=
  match o with
  | PlayerWin => "Player won the match"
  | OpponentWin => "Opponent won the match"
  | Surrender => "Player surrendered"
  | Draw => "Match ended in a draw"
  end.


(** The towers of a side during a battle: the two guard towers and the King
    Tower with the maxima of the initial state, hit points between 0 and the
    maximum, and no damage on a tower while a tower before it in the order
    has hit points left. *)
Definition towersOk (towers : list Tower) : Prop :=
  exists guard1 guard2 king,
    towers = [guard1; guard2; king] /\
    Type_ guard1 = "Guard Tower 1"%string /\
    Type_ guard2 = "Guard Tower 2"%string /\
    Type_ king = "King Tower"%string /\
    MaxHP guard1 = 1000 /\ MaxHP guard2 = 1000 /\ MaxHP king = 2000 /\
    0 <= HP guard1 <= 1000 /\ 0 <= HP guard2 <= 1000 /\ 0 <= HP king <= 2000 /\
    (0 < HP guard1 -> HP guard2 = 1000 /\ HP king = 2000) /\
    (0 < HP guard2 -> HP king = 2000).


(** The damage on the base value plus jitter [x] agrees with the exact
    multiples: [x], [3x/2] and [6x/5] rounded down, and [9x/5] rounded down
    or, when [x] is a multiple of 5, one less. *)
Definition exactDamage (x : Z) : bool :=
  (totalDamage x 0 false false =? Z.max 1 x)
  && (totalDamage x 0 true false =? Z.max 1 (x * 3 / 2))
  && (totalDamage x 0 false true =? Z.max 1 (x * 6 / 5))
  && ((totalDamage x 0 true true =? Z.max 1 (x * 9 / 5))
      || ((x mod 5 =? 0) && (totalDamage x 0 true true =? Z.max 1 (x * 9 / 5 - 1)))).

(** ** Facts about [int] arithmetic *)

Lemma wrap_id z : GoInt.in_range z -> GoInt.wrap z = z.
Proof.
  unfold GoInt.in_range, GoInt.wrap. intros H.
  rewrite Z.mod_small by lia. lia.
Qed.

(** Wrapping moves a number by a multiple of [2 ^ 64], downwards or not at
    all when the number is not below the least [int]. *)
Lemma wrap_le z : - 2 ^ 63 <= z -> GoInt.wrap z <= z.
Proof.
  unfold GoInt.wrap. intros H.
  pose proof (Z.mod_le (z + 2 ^ 63) (2 ^ 64) ltac:(lia) ltac:(lia)). lia.
Qed.

Lemma max_spec a b : GoInt.max a b = Z.max a b.
Proof. unfold GoInt.max. destruct (Z.ltb_spec b a); lia. Qed.

Lemma max_lower a b : a <= GoInt.max a b.
Proof. rewrite max_spec. lia. Qed.

Lemma damagedHP_max hp damage :
  damagedHP hp damage = Z.max 0 (GoInt.sub hp damage).
Proof. unfold damagedHP. destruct (Z.ltb_spec (GoInt.sub hp damage) 0); lia. Qed.

Lemma damagedHP_le hp damage :
  0 < hp -> 0 <= damage < 2 ^ 63 -> damagedHP hp damage <= hp.
Proof.
  intros Hhp Hd. rewrite damagedHP_max. unfold GoInt.sub.
  pose proof (wrap_le (hp - damage) ltac:(lia)). lia.
Qed.

(** ** [applyDamage] *)

Lemma findTower_Some ty towers k i t :
  findTower ty towers k = Some (i, t) ->
  exists j, i = (k + j)%nat /\ firstAlive ty towers j t.
Proof.
  revert k. induction towers as [|u rest IH]; intros k H; simpl in H.
  - discriminate.
  - destruct (String.eqb (Type_ u) ty && (0 <? HP u)) eqn:E.
    + injection H as <- <-. apply andb_prop in E as [E1 E2].
      apply String.eqb_eq in E1. apply Z.ltb_lt in E2.
      exists 0%nat. repeat split; auto; lia.
    + destruct (IH _ H) as (j & -> & Hl & Hty & Hhp & Hbefore).
      exists (S j). repeat split; auto; try lia.
      intros [|j'] w Hj' Hw Htw; simpl in Hw.
      * injection Hw as <-. apply andb_false_iff in E as [E | E].
        -- apply String.eqb_neq in E. contradiction.
        -- apply Z.ltb_ge in E. exact E.
      * apply (Hbefore j' w); auto. lia.
Qed.

Lemma findTower_None ty towers k :
  findTower ty towers k = None -> noneAlive ty towers.
Proof.
  revert k. induction towers as [|u rest IH]; intros k H w Hw Hty.
  - inversion Hw.
  - simpl in H. destruct (String.eqb (Type_ u) ty && (0 <? HP u)) eqn:E.
    + discriminate.
    + apply elem_of_cons in Hw as [-> | Hw].
      * apply andb_false_iff in E as [E | E].
        -- apply String.eqb_neq in E. contradiction.
        -- apply Z.ltb_ge in E. exact E.
      * apply (IH _ H w); auto.
Qed.

Lemma findTower_first ty towers k j t :
  firstAlive ty towers j t -> findTower ty towers k = Some ((k + j)%nat, t).
Proof.
  revert k j. induction towers as [|u rest IH];
    intros k j (Hl & Hty & Hhp & Hbefore).
  - discriminate.
  - simpl. destruct j as [|j]; simpl in Hl.
    + injection Hl as ->.
      rewrite (proj2 (String.eqb_eq _ _) Hty), (proj2 (Z.ltb_lt _ _) Hhp).
      simpl. do 2 f_equal. lia.
    + destruct (String.eqb (Type_ u) ty && (0 <? HP u)) eqn:E.
      * apply andb_prop in E as [E1 E2].
        apply String.eqb_eq in E1. apply Z.ltb_lt in E2.
        specialize (Hbefore 0%nat u ltac:(lia) eq_refl E1). lia.
      * rewrite (IH (S k) j).
        -- do 2 f_equal. lia.
        -- repeat split; auto. intros j' w Hj' Hw.
           apply (Hbefore (S j') w); [lia | exact Hw].
Qed.

Lemma findTower_none ty towers k :
  noneAlive ty towers -> findTower ty towers k = None.
Proof.
  intros Hnone. destruct (findTower ty towers k) as [[i t]|] eqn:E; auto.
  apply findTower_Some in E as (j & _ & Hl & Hty & Hhp & _).
  assert (t ∈ towers) as Hin by (eapply list_elem_of_lookup_2; eauto).
  specialize (Hnone t Hin Hty). lia.
Qed.

(** The outer loop hits the first living tower of the first type, in
    [order], that has one. *)
Lemma applyDamageFrom_target order towers damage k i t :
  order !! k = Some (Type_ t) ->
  (forall k' ty, (k' < k)%nat -> order !! k' = Some ty -> noneAlive ty towers) ->
  firstAlive (Type_ t) towers i t ->
  applyDamageFrom order towers damage = hitTower towers i t damage.
Proof.
  revert k. induction order as [|ty order IH]; intros k Hk Hearlier Hfirst.
  - discriminate.
  - simpl. destruct k as [|k]; simpl in Hk.
    + injection Hk as ->. now rewrite (findTower_first _ _ 0 i t Hfirst).
    + rewrite (findTower_none ty towers 0).
      * apply (IH k); auto. intros k' ty' Hk' Hty'.
        apply (Hearlier (S k') ty'); [lia | exact Hty'].
      * apply (Hearlier 0%nat ty); [lia | reflexivity].
Qed.

Lemma applyDamageFrom_cases order towers damage :
  (exists k i t,
      order !! k = Some (Type_ t) /\
      (forall k' ty, (k' < k)%nat -> order !! k' = Some ty ->
                     noneAlive ty towers) /\
      firstAlive (Type_ t) towers i t /\
      applyDamageFrom order towers damage = hitTower towers i t damage)
  \/ ((forall ty, ty ∈ order -> noneAlive ty towers) /\
      applyDamageFrom order towers damage = (towers, "No towers left"%string)).
Proof.
  induction order as [|ty order IH]; simpl.
  - right. split; auto. intros ty Hty. inversion Hty.
  - destruct (findTower ty towers 0) as [[i t]|] eqn:E.
    + left. apply findTower_Some in E as (j & -> & Hfirst).
      pose proof Hfirst as (_ & Hty & _). subst ty.
      exists 0%nat, j, t.
      split; [reflexivity |]. split; [intros k' ty' Hk'; lia |].
      split; [exact Hfirst | reflexivity].
    + apply findTower_None in E.
      destruct IH as [(k & i & t & Hk & Hearlier & Hfirst & Heq) | [Hnone Heq]].
      * left. exists (S k), i, t.
        split; [exact Hk |]. split; [| split; [exact Hfirst | exact Heq]].
        intros [|k'] ty' Hk' Hty'; simpl in Hty'.
        -- injection Hty' as <-. exact E.
        -- apply (Hearlier k' ty'); [lia | exact Hty'].
      * right. split; auto. intros ty' Hty'.
        apply elem_of_cons in Hty' as [-> | Hty']; auto.
Qed.

(** C1. For every tower list and every damage amount, [applyDamage]
    damages exactly the first tower, in the order Guard Tower 1, Guard
    Tower 2, King Tower, whose hit points are above 0: the list changes at
    the index of that tower only, its hit points become the difference
    (as [int] subtraction computes it, which is the exact difference
    whenever that is an [int]) clamped at 0, and the descriptor names the
    tower and the new hit points. Such a tower exists as soon as a tower of
    one of the three types has hit points left. When no tower has hit
    points left the result is the sentinel and the list is unchanged. *)
Theorem applyDamage_first_alive towers damage :
  (forall i t, target towers i t ->
     let hp := Z.max 0 (GoInt.sub (HP t) damage) in
     applyDamage towers damage
     = (<[i := setHP t hp]> towers,
        Type_ t +:+ " (HP now " +:+ GoInt.format hp +:+ ")")
     /\ 0 <= hp
     /\ (GoInt.in_range (HP t - damage) -> hp = Z.max 0 (HP t - damage)))
  /\ ((exists t, t ∈ towers /\ Type_ t ∈ targetOrder /\ 0 < HP t) ->
      exists i t, target towers i t)
  /\ ((forall t, t ∈ towers -> HP t <= 0) ->
      applyDamage towers damage = (towers, "No towers left"%string)).
Proof.
  split; [| split].
  - intros i t (k & Hk & Hearlier & Hfirst) hp. split; [| split].
    + unfold applyDamage.
      rewrite (applyDamageFrom_target _ _ _ k i t Hk Hearlier Hfirst).
      unfold hitTower, descriptor. now rewrite damagedHP_max.
    + subst hp. lia.
    + intros Hr. subst hp. unfold GoInt.sub. now rewrite wrap_id.
  - intros (u & Hin & Hty & Hhp).
    destruct (applyDamageFrom_cases targetOrder towers damage)
      as [(k & i & t & Hk & Hearlier & Hfirst & _) | [Hnone _]].
    + exists i, t, k. auto.
    + specialize (Hnone _ Hty u Hin eq_refl). lia.
  - intros Hdead. unfold applyDamage.
    destruct (applyDamageFrom_cases targetOrder towers damage)
      as [(k & i & t & _ & _ & (Hl & _ & Hhp & _) & _) | [_ Heq]]; auto.
    assert (t ∈ towers) as Hin by (eapply list_elem_of_lookup_2; eauto).
    specialize (Hdead t Hin). lia.
Qed.

(** The shape of the result of [applyDamage]: the list itself, or the list
    with the hit points of one living tower replaced. *)
Lemma applyDamage_shape towers damage :
  (applyDamage towers damage).1 = towers \/
  exists i t, towers !! i = Some t /\ 0 < HP t /\
    (applyDamage towers damage).1
    = <[i := setHP t (damagedHP (HP t) damage)]> towers.
Proof.
  unfold applyDamage.
  destruct (applyDamageFrom_cases targetOrder towers damage)
    as [(k & i & t & _ & _ & (Hl & _ & Hhp & _) & Heq) | [_ Heq]];
    rewrite Heq; simpl; [right; exists i, t; auto | left; reflexivity].
Qed.

(** C10, as the code has it. For every tower list and every damage amount
    [applyDamage] keeps the length of the list, changes at most one of its
    towers, and keeps the fields [Type], [ATK], [DEF], [CRIT] and [MaxHP] of
    every tower; and for every damage amount that is not negative no
    tower's hit points increase. *)
Theorem applyDamage_frame towers damage :
  let towers' := (applyDamage towers damage).1 in
  length towers' = length towers
  /\ (exists i, forall j, j <> i -> towers' !! j = towers !! j)
  /\ (forall j t t', towers !! j = Some t -> towers' !! j = Some t' ->
        Type_ t' = Type_ t /\ ATK t' = ATK t /\ DEF t' = DEF t /\
        CRIT t' = CRIT t /\ MaxHP t' = MaxHP t)
  /\ (0 <= damage < 2 ^ 63 ->
      forall j t t', towers !! j = Some t -> towers' !! j = Some t' ->
        HP t' <= HP t).
Proof.
  intros towers'. subst towers'.
  destruct (applyDamage_shape towers damage)
    as [-> | (i & u & Hl & Hhp & ->)].
  - split; [reflexivity |]. split; [exists 0%nat; reflexivity |].
    split; intros; simplify_eq; auto. lia.
  - split; [apply length_insert |].
    split; [exists i; intros j Hj; now apply list_lookup_insert_ne |].
    assert (forall j t t', towers !! j = Some t ->
              <[i := setHP u (damagedHP (HP u) damage)]> towers !! j = Some t' ->
              t' = t \/ (t = u /\ t' = setHP u (damagedHP (HP u) damage)))
      as Hcase.
    { intros j t t' Ht Ht'. destruct (decide (j = i)) as [-> | Hne].
      - rewrite list_lookup_insert_eq in Ht' by (eapply lookup_lt_Some; eauto).
        right. split; congruence.
      - rewrite list_lookup_insert_ne in Ht' by auto. left. congruence. }
    split.
    + intros j t t' Ht Ht'.
      destruct (Hcase j t t' Ht Ht') as [-> | [-> ->]]; auto.
    + intros Hd j t t' Ht Ht'.
      destruct (Hcase j t t' Ht Ht') as [-> | [-> ->]]; [lia |].
      simpl. now apply damagedHP_le.
Qed.

(** ** The random source and [float64] conversions *)

Lemma Intn_range n r : 0 < n -> 0 <= (Intn n r).1 < n.
Proof.
  intros Hn. unfold Intn. destruct (nextRaw r) as [x r']. simpl.
  apply Z.mod_pos_bound. exact Hn.
Qed.



(** The four values of the multiplier. Neither 1.2 nor 1.8 is a binary64
    number; the product of 1.5 and the binary64 number next to 1.2 is the
    binary64 number just below the one next to 1.8. *)
Lemma critMultiplier_values :
  critMultiplier false false = 1%float /\
  critMultiplier true false = 1.5%float /\
  critMultiplier false true = 1.2%float /\
  critMultiplier true true = 0x1.cccccccccccccp+0%float /\
  1.8%float = 0x1.ccccccccccccdp+0%float /\
  (critMultiplier true true <? 1.8)%float = true.
Proof. repeat split; reflexivity. Qed.

(** ** [calculateDamage] *)

Lemma calculateDamage_unfold card stats targetTowers r :
  calculateDamage card stats targetTowers r
  = let cardCrit := (cardDraw r <? CritChance stats)%float in
    let towerCrit := (towerDraw r <? firstTowerCrit 0.05 targetTowers)%float in
    ((totalDamage
        (GoInt.add (BaseDamage stats) (GoInt.mul (GoInt.sub (Level card) 1) 10))
        (jitterDraw r) cardCrit towerCrit, cardCrit, towerCrit),
     (Float64 (Float64 (Intn 21 r).2).2).2).
Proof.
  unfold calculateDamage, jitterDraw, cardDraw, towerDraw.
  destruct (Intn 21 r) as [n r1]. simpl.
  destruct (Float64 r1) as [u r2]. simpl.
  destruct (Float64 r2) as [u' r3]. reflexivity.
Qed.


(** The loop of [calculateDamage] yields the crit chance of the first tower
    of the slice with [HP > 0], and the default when there is none. *)
Lemma firstTowerCrit_first default towers i t :
  towers !! i = Some t -> 0 < HP t ->
  (forall j u, (j < i)%nat -> towers !! j = Some u -> HP u <= 0) ->
  firstTowerCrit default towers = CRIT t.
Proof.
  revert i. induction towers as [|w rest IH]; intros i Hl Hhp Hbefore.
  - discriminate.
  - simpl. destruct i as [|i]; simpl in Hl.
    + injection Hl as ->. now rewrite (proj2 (Z.ltb_lt _ _) Hhp).
    + pose proof (Hbefore 0%nat w ltac:(lia) eq_refl) as Hw.
      rewrite (proj2 (Z.ltb_ge _ _) Hw).
      apply (IH i); auto. intros j u Hj Hu. apply (Hbefore (S j) u); [lia | exact Hu].
Qed.

Lemma firstTowerCrit_default default towers :
  (forall t, t ∈ towers -> HP t <= 0) -> firstTowerCrit default towers = default.
Proof.
  induction towers as [|w rest IH]; intros Hdead; simpl.
  - reflexivity.
  - rewrite (proj2 (Z.ltb_ge _ _) (Hdead w ltac:(left))).
    apply IH. intros t Ht. apply Hdead. now right.
Qed.

Lemma targetOrder_NoDup : NoDup targetOrder.
Proof.
  unfold targetOrder. repeat constructor; intros H;
    repeat (apply elem_of_cons in H as [H | H]; [discriminate |]);
    inversion H.
Qed.

(** Among the towers of a side the target of [applyDamage] is the first
    tower of the list with [HP > 0]. *)
Lemma side_target_first towers i t :
  side towers -> target towers i t ->
  towers !! i = Some t /\ 0 < HP t /\
  forall j u, (j < i)%nat -> towers !! j = Some u -> HP u <= 0.
Proof.
  unfold side. intros Hside (k & Hk & Hearlier & Hl & _ & Hhp & _).
  split; [exact Hl |]. split; [exact Hhp |].
  assert (forall j u, towers !! j = Some u -> targetOrder !! j = Some (Type_ u))
    as Htype.
  { intros j u Hu. rewrite <- Hside, list_lookup_fmap, Hu. reflexivity. }
  assert (i = k) as ->.
  { eapply NoDup_lookup; [apply targetOrder_NoDup | apply Htype; eauto | eauto]. }
  intros j u Hj Hu.
  apply (Hearlier j (Type_ u) Hj (Htype _ _ Hu) u); [| reflexivity].
  eapply list_elem_of_lookup_2; eauto.
Qed.

(** C5, as the code has it. The tower-crit draw of [calculateDamage] is
    compared with the crit chance of the first defending tower, in the order
    Guard Tower 1, Guard Tower 2, King Tower of a side, whose hit points are
    above 0; and when no defending tower has hit points above 0 it is
    compared with the fixed default 0.05, the crit chance of a guard tower. *)
Theorem calculateDamage_tower_crit card stats targetTowers r
    damage cardCrit towerCrit r' :
  calculateDamage card stats targetTowers r = ((damage, cardCrit, towerCrit), r') ->
  (forall i t, side targetTowers -> target targetTowers i t ->
     towerCrit = (towerDraw r <? CRIT t)%float)
  /\ ((forall t, t ∈ targetTowers -> HP t <= 0) ->
      towerCrit = (towerDraw r <? 0.05)%float).
Proof.
  rewrite calculateDamage_unfold. simpl. intros [= _ _ <- _]. split.
  - intros i t Hside Htarget.
    destruct (side_target_first _ _ _ Hside Htarget) as (Hl & Hhp & Hbefore).
    now rewrite (firstTowerCrit_first _ _ i t Hl Hhp Hbefore).
  - intros Hdead. now rewrite firstTowerCrit_default.
Qed.

(** C7 on the code: with the statistics of the Musketeer (base damage 100)
    at level 1, jitter 0 and both crits, [calculateDamage] returns 179. The
    multiplier is the binary64 product of 1.5 and 1.2, which is below 1.8,
    and the product with 100 is below 180 before it is cut to an [int]. *)
Theorem double_crit_base_100 :
  let card := mkCard "Musketeer" 1 in
  BaseDamage (playerStats card) = 100
  /\ jitterDraw [10; 0; 0] = 0
  /\ calculateDamage card (playerStats card) initialTowers [10; 0; 0]
     = ((179, true, true), [])
  /\ (GoFloat.of_int 100 * critMultiplier true true <? GoFloat.of_int 180)%float
     = true.
Proof. repeat split; reflexivity. Qed.

(** ** Elixir *)

(** A property of the levels 0 .. 10 is checked level by level. *)
Lemma level_cases (P : Z -> Prop) :
  (forall k : nat, (k <= 10)%nat -> P (Z.of_nat k)) ->
  forall n, 0 <= n <= 10 -> P n.
Proof.
  intros H n Hn. rewrite <- (Z2Nat.id n) by lia. apply H. lia.
Qed.

Ltac each_level k Hk :=
  first [ exfalso; lia
        | destruct k as [| k]; [clear Hk; simpl Z.of_nat | each_level k Hk] ].

Ltac levels H :=
  let k := fresh "k" in
  let Hk := fresh "Hk" in
  destruct H as [H ->];
  match type of H with
  | 0 <= ?n <= 10 =>
      revert H; revert n;
      match goal with
      | |- forall m, _ -> @?P m => apply (level_cases P)
      end;
      intros k Hk; each_level k Hk
  end.

Lemma elixirLevel_bounds e n :
  elixirLevel e n -> (0 <=? e)%float = true /\ (e <=? 10)%float = true.
Proof. intros H. levels H; split; reflexivity. Qed.

(** Regeneration adds one unit and stops at 10. *)
Lemma regenerate_level e n :
  elixirLevel e n ->
  elixirLevel (GoFloat.minFloat (e + 1.0) 10.0)%float (Z.min (n + 1) 10).
Proof. intros H. levels H; split; first [lia | reflexivity]. Qed.

(** The flat deduction of the opponent, behind the test [enemyElixir < 3]. *)
Lemma enemy_spend_level e n :
  elixirLevel e n -> (e <? 3)%float = false ->
  3 <= n /\ elixirLevel (e - 3)%float (n - 3).
Proof.
  intros H. levels H; intros Hlt; first [discriminate Hlt | idtac];
    (split; [lia | split; first [lia | reflexivity]]).
Qed.

(** The deduction of the player, behind the test on the cost. *)
Lemma player_spend_level e n cost :
  elixirLevel e n -> 2 <= cost <= 5 ->
  (e <? GoFloat.of_int cost)%float = false ->
  cost <= n /\ elixirLevel (e - GoFloat.of_int cost)%float (n - cost).
Proof.
  intros H Hc.
  assert (cost = 2 \/ cost = 3 \/ cost = 4 \/ cost = 5) as Hcost by lia.
  clear Hc. repeat (destruct Hcost as [-> | Hcost]); [.. | subst cost];
    levels H; intros Hlt; first [discriminate Hlt | idtac];
    (split; [lia | split; first [lia | reflexivity]]).
Qed.

(** The test on the cost rejects exactly the pools below the cost. *)
Lemma player_reject_level e n cost :
  elixirLevel e n -> 2 <= cost <= 5 ->
  (e <? GoFloat.of_int cost)%float = true <-> n < cost.
Proof.
  intros H Hc.
  assert (cost = 2 \/ cost = 3 \/ cost = 4 \/ cost = 5) as Hcost by lia.
  clear Hc. repeat (destruct Hcost as [-> | Hcost]); [.. | subst cost];
    levels H; (split; intros Hlt; first [discriminate Hlt | lia | reflexivity]).
Qed.

(** Every cost the player can be charged comes from the catalogue or from
    the fallback entry. *)
Lemma cardDatabase_costs :
  map_Forall (fun _ stats => 2 <= ElixirCost stats <= 5) cardDatabase.
Proof.
  unfold cardDatabase. simpl list_to_map.
  repeat (apply map_Forall_insert_2; [simpl; lia |]).
  apply map_Forall_empty.
Qed.

Lemma playerStats_cost card : 2 <= ElixirCost (playerStats card) <= 5.
Proof.
  unfold playerStats. destruct (cardDatabase !! Name card) as [stats |] eqn:E.
  - exact (cardDatabase_costs _ _ E).
  - simpl. lia.
Qed.

(** ** The cases of the loop *)

Lemma onInput_invalid cfg b input :
  (forall choice, ~ validChoice cfg input choice) ->
  onInput cfg b input = (b, [Println (invalidChoice cfg)], Continue).
Proof.
  intros Hinv. unfold onInput.
  destruct (parseInt input) as [choice err] eqn:E.
  destruct err as [e |]; [reflexivity |]. simpl.
  destruct (Z.ltb_spec choice 1); [reflexivity |].
  destruct (Z.ltb_spec (len (CurrentDeck cfg)) choice); [reflexivity |].
  exfalso. apply (Hinv choice). split; [exact E | lia].
Qed.

Lemma onInput_valid cfg b input choice :
  validChoice cfg input choice ->
  let card := selected cfg choice in
  let stats := playerStats card in
  let st := state b in
  onInput cfg b input
  = if (PlayerElixir st <? GoFloat.of_int (ElixirCost stats))%float then
      (b, [NotEnoughElixir (ElixirCost stats) (PlayerElixir st)], Continue)
    else
      let '((damage, cardCrit, towerCrit), r) :=
        calculateDamage card stats (EnemyTowers st) (rand b) in
      let '(towers, result) := applyDamage (EnemyTowers st) damage in
      let st :=
        mkGameState (PlayerTowers st) towers
          (PlayerElixir st - GoFloat.of_int (ElixirCost stats))%float
          (EnemyElixir st) in
      let text :=
        " used " +:+ Name card +:+ " (Level "
          +:+ GoInt.format (Level card) +:+ ") dealing "
          +:+ GoInt.format damage +:+ " damage"
          +:+ critText cardCrit towerCrit +:+ " to " +:+ result in
      let b := record (setState (setRand b r) st) ("Player" +:+ text) in
      let out := [Display st; Println ("You" +:+ text +:+ "!")] in
      if isKingTowerDestroyed (EnemyTowers st) then
        (stopTickers (record b "Player won the match"),
         out ++ [Println (newline +:+
            "Congratulations! You destroyed the opponent's King Tower!")],
         Return PlayerWin)
      else (b, out, FallThrough).
Proof.
  intros [E [Hlo Hhi]]. unfold onInput. rewrite E. simpl.
  rewrite (proj2 (Z.ltb_ge _ _) Hlo), (proj2 (Z.ltb_ge _ _) Hhi). reflexivity.
Qed.

Lemma validChoice_decide cfg input :
  (exists choice, validChoice cfg input choice) \/
  (forall choice, ~ validChoice cfg input choice).
Proof.
  unfold validChoice. destruct (parseInt input) as [choice [e |]].
  - right. intros c [H _]. discriminate.
  - destruct (Z.le_gt_cases 1 choice);
      [destruct (Z.le_gt_cases choice (len (CurrentDeck cfg))) |].
    + left. exists choice. auto.
    + right. intros c [[= <-] ?]. lia.
    + right. intros c [[= <-] ?]. lia.
Qed.

(** What the case of a player input does to the state, and how it ends. *)
Lemma onInput_effect cfg b input :
  let '(b', _, branch) := onInput cfg b input in
  (b' = b /\ branch = Continue)
  \/ (exists choice damage,
        validChoice cfg input choice /\
        let cost := ElixirCost (playerStats (selected cfg choice)) in
        (PlayerElixir (state b) <? GoFloat.of_int cost)%float = false /\
        state b'
        = mkGameState (PlayerTowers (state b))
            (applyDamage (EnemyTowers (state b)) damage).1
            (PlayerElixir (state b) - GoFloat.of_int cost)%float
            (EnemyElixir (state b)) /\
        (branch = Return PlayerWin /\
         isKingTowerDestroyed (EnemyTowers (state b')) = true
         \/ branch = FallThrough /\
            isKingTowerDestroyed (EnemyTowers (state b')) = false)).
Proof.
  destruct (validChoice_decide cfg input) as [[choice Hvalid] | Hinvalid].
  - rewrite (onInput_valid cfg b input choice Hvalid).
    destruct (PlayerElixir (state b) <? _)%float eqn:Hlt; [left; auto |].
    destruct (calculateDamage _ _ _ _) as [[[damage cardCrit] towerCrit] r].
    destruct (applyDamage (EnemyTowers (state b)) damage) as [towers result] eqn:Ha.
    simpl. destruct (isKingTowerDestroyed towers) eqn:Hk;
      right; exists choice, damage; rewrite Ha; simpl; auto 10.
  - rewrite (onInput_invalid cfg b input Hinvalid). left. auto.
Qed.

Lemma simulateEnemyTurn_plays deck enemyElixir name targetTowers r
    damage cardCrit towerCrit action r' :
  simulateEnemyTurn deck enemyElixir name targetTowers r
  = ((damage, cardCrit, towerCrit, action), r') ->
  0 < damage ->
  (enemyElixir <? 3)%float = false /\ 0 < len deck.
Proof.
  unfold simulateEnemyTurn.
  destruct (enemyElixir <? 3)%float; simpl.
  - intros [= <- _ _ _ _]. lia.
  - destruct (Z.eqb_spec (len deck) 0).
    + intros [= <- _ _ _ _]. lia.
    + intros _ _. split; [reflexivity | unfold len in *; lia].
Qed.

(** What the case of the opponent's tick does to the state, and how it
    ends. *)
Lemma onEnemyActionTick_effect cfg b :
  let '(b', _, branch) := onEnemyActionTick cfg b in
  (state b' = state b
   \/ exists damage cardCrit towerCrit action r',
        isKingTowerDestroyed (PlayerTowers (state b)) = false /\
        simulateEnemyTurn (enemyDeck cfg) (EnemyElixir (state b))
          (opponentName cfg) (PlayerTowers (state b)) (rand b)
        = ((damage, cardCrit, towerCrit, action), r') /\
        0 < damage /\
        state b'
        = mkGameState (applyDamage (PlayerTowers (state b)) damage).1
            (EnemyTowers (state b)) (PlayerElixir (state b))
            (EnemyElixir (state b) - 3)%float)
  /\ (branch = Return OpponentWin /\
      isKingTowerDestroyed (PlayerTowers (state b')) = true
      \/ branch = FallThrough).
Proof.
  unfold onEnemyActionTick.
  destruct (isKingTowerDestroyed (PlayerTowers (state b))) eqn:Hk0; simpl;
    [auto |].
  destruct (simulateEnemyTurn _ _ _ _ _)
    as [[[[damage cardCrit] towerCrit] action] r'] eqn:Hsim.
  destruct (Z.ltb_spec 0 damage) as [Hpos | Hzero].
  - destruct (applyDamage (PlayerTowers (state b)) damage)
      as [towers result] eqn:Ha. simpl.
    destruct (isKingTowerDestroyed towers) eqn:Hk; simpl; (split; [| auto]);
      right; exists damage, cardCrit, towerCrit, action, r'; rewrite Ha; auto.
  - simpl. rewrite Hk0. auto.
Qed.

(** ** Invariants of the loop *)

Lemma applyDamage_types towers damage :
  Type_ <$> (applyDamage towers damage).1 = Type_ <$> towers.
Proof.
  destruct (applyDamage_shape towers damage) as [-> | (i & t & Hl & _ & ->)];
    [reflexivity |].
  rewrite list_fmap_insert. simpl. apply list_insert_id.
  now rewrite list_lookup_fmap, Hl.
Qed.

Lemma applyDamage_side towers damage :
  side towers -> side (applyDamage towers damage).1.
Proof. unfold side. now rewrite applyDamage_types. Qed.

Lemma initialState_wellFormed : wellFormed initialState.
Proof.
  repeat split; try reflexivity; exists 10; split; first [lia | reflexivity].
Qed.

Lemma selectCase_wellFormed cfg b ev :
  wellFormed (state b) -> wellFormed (state (selectCase cfg b ev).1.1).
Proof.
  intros (Hp & He & [np Hnp] & [ne Hne]). destruct ev as [| input | |]; simpl.
  - repeat split; eauto.
  - pose proof (onInput_effect cfg b input) as H.
    destruct (onInput cfg b input) as [[b' out] branch]. simpl.
    destruct H as [[-> _] | (choice & damage & _ & Hlt & -> & _)].
    + repeat split; eauto.
    + destruct (player_spend_level _ _ _ Hnp (playerStats_cost _) Hlt) as [_ Hl].
      split; [exact Hp |]. split; [now apply applyDamage_side |].
      split; simpl; eauto.
  - split; [exact Hp |]. split; [exact He |].
    split; simpl; eexists; eapply regenerate_level; eauto.
  - pose proof (onEnemyActionTick_effect cfg b) as H.
    destruct (onEnemyActionTick cfg b) as [[b' out] branch]. simpl.
    destruct H as [[-> | (damage & cc & tc & action & r' & _ & Hsim & Hpos & ->)] _].
    + repeat split; eauto.
    + destruct (simulateEnemyTurn_plays _ _ _ _ _ _ _ _ _ _ Hsim Hpos) as [Hlt _].
      destruct (enemy_spend_level _ _ Hne Hlt) as [_ Hl].
      split; [now apply applyDamage_side |]. split; [exact He |].
      split; simpl; eauto.
Qed.

(** The draw check leaves the state alone. *)
Lemma iteration_state cfg b ev since :
  state (iteration cfg b ev since).1.1 = state (selectCase cfg b ev).1.1.
Proof.
  unfold iteration. destruct (selectCase cfg b ev) as [[b' out] branch].
  destruct branch; simpl; try reflexivity.
  destruct (threeMinutes <? since); reflexivity.
Qed.

Lemma iteration_wellFormed cfg b ev since :
  wellFormed (state b) -> wellFormed (state (iteration cfg b ev since).1.1).
Proof. rewrite iteration_state. apply selectCase_wellFormed. Qed.

Lemma run_wellFormed cfg b schedule :
  wellFormed (state b) -> wellFormed (state (run cfg b schedule).1.1).
Proof.
  revert b. induction schedule as [| [ev since] schedule IH]; intros b Hb; simpl.
  - exact Hb.
  - pose proof (iteration_wellFormed cfg b ev since Hb) as Hi.
    destruct (iteration cfg b ev since) as [[b' out] [o |]]; simpl in *.
    + exact Hi.
    + specialize (IH b' Hi).
      destruct (run cfg b' schedule) as [[b'' out'] o']. exact IH.
Qed.

(** A run that returns does so in an iteration that starts from a
    well-formed state. *)
Lemma run_returns cfg b schedule b' out o :
  wellFormed (state b) ->
  run cfg b schedule = (b', out, Some o) ->
  exists b0 ev since out0,
    wellFormed (state b0) /\ iteration cfg b0 ev since = (b', out0, Some o).
Proof.
  revert b out. induction schedule as [| [ev since] schedule IH];
    intros b out Hb; simpl.
  - discriminate.
  - pose proof (iteration_wellFormed cfg b ev since Hb) as Hi.
    destruct (iteration cfg b ev since) as [[b1 out1] [o1 |]] eqn:E; simpl in *.
    + intros [= <- <- <-]. exists b, ev, since, out1. auto.
    + destruct (run cfg b1 schedule) as [[b2 out2] o2] eqn:Er.
      intros [= <- <- ->]. eapply IH; eauto.
Qed.

Lemma playGame_wellFormed cfg r schedule :
  wellFormed (state (playGame cfg r schedule).1.1).
Proof. apply run_wellFormed, initialState_wellFormed. Qed.

(** C3. After every schedule of events, whatever the deck, the opponent and
    the draws, both elixir pools lie between 0 and 10. The regeneration tick
    sets each pool to the lesser of the pool plus 1.0 and 10.0. A play of
    the player whose card costs more than the pool holds is rejected: the
    iteration returns the battle as it was (elixir, towers, replay log and
    random source) and the loop goes on, and on a pool of [n] whole units
    the test of the code rejects exactly the costs above [n]; and the
    opponent, with less than 3 units, leaves the state as it was. *)
Theorem elixir_pools_bounded cfg r schedule :
  (let st := state (playGame cfg r schedule).1.1 in
   (0 <=? PlayerElixir st)%float = true /\ (PlayerElixir st <=? 10)%float = true /\
   (0 <=? EnemyElixir st)%float = true /\ (EnemyElixir st <=? 10)%float = true)
  /\ (forall b since,
        let st := state (iteration cfg b ElixirTick since).1.1 in
        PlayerElixir st
        = GoFloat.minFloat (PlayerElixir (state b) + 1.0) 10.0 /\
        EnemyElixir st
        = GoFloat.minFloat (EnemyElixir (state b) + 1.0) 10.0 /\
        (forall n, elixirLevel (PlayerElixir (state b)) n ->
                   elixirLevel (PlayerElixir st) (Z.min (n + 1) 10)) /\
        (forall n, elixirLevel (EnemyElixir (state b)) n ->
                   elixirLevel (EnemyElixir st) (Z.min (n + 1) 10)))
  /\ (forall b input choice since,
        validChoice cfg input choice ->
        let cost := ElixirCost (playerStats (selected cfg choice)) in
        (PlayerElixir (state b) <? GoFloat.of_int cost)%float = true ->
        iteration cfg b (InputChan input) since
        = (b, [NotEnoughElixir cost (PlayerElixir (state b))], None))
  /\ (forall b input choice n,
        validChoice cfg input choice ->
        elixirLevel (PlayerElixir (state b)) n ->
        let cost := ElixirCost (playerStats (selected cfg choice)) in
        (PlayerElixir (state b) <? GoFloat.of_int cost)%float = true <-> n < cost)
  /\ (forall b since,
        (EnemyElixir (state b) <? 3)%float = true ->
        state (iteration cfg b EnemyActionTick since).1.1 = state b).
Proof.
  split; [| split; [| split; [| split]]].
  - destruct (playGame_wellFormed cfg r schedule)
      as (_ & _ & [np Hnp] & [ne Hne]).
    destruct (elixirLevel_bounds _ _ Hnp), (elixirLevel_bounds _ _ Hne). auto.
  - intros b since st. subst st. rewrite iteration_state. simpl.
    split; [reflexivity |]. split; [reflexivity |].
    split; intros n Hn; now apply regenerate_level.
  - intros b input choice since Hvalid cost Hlt. subst cost.
    unfold iteration. simpl. rewrite (onInput_valid cfg b input choice Hvalid).
    simpl. now rewrite Hlt.
  - intros b input choice n _ Hn cost.
    apply player_reject_level; [exact Hn | apply playerStats_cost].
  - intros b since Hlt. rewrite iteration_state. simpl.
    pose proof (onEnemyActionTick_effect cfg b) as H.
    destruct (onEnemyActionTick cfg b) as [[b' out] branch]. simpl.
    destruct H as [[-> | (damage & cc & tc & action & r' & _ & Hsim & Hpos & _)] _];
      [reflexivity |].
    destruct (simulateEnemyTurn_plays _ _ _ _ _ _ _ _ _ _ Hsim Hpos) as [Hge _].
    congruence.
Qed.

(** ** The end of a battle *)

Lemma iteration_win cfg b ev since b' out o :
  iteration cfg b ev since = (b', out, Some o) ->
  (o = PlayerWin -> isKingTowerDestroyed (EnemyTowers (state b')) = true) /\
  (o = OpponentWin -> isKingTowerDestroyed (PlayerTowers (state b')) = true).
Proof.
  unfold iteration. destruct ev as [| input | |]; simpl.
  - intros [= <- <- <-]. split; discriminate.
  - pose proof (onInput_effect cfg b input) as H.
    destruct (onInput cfg b input) as [[b1 out1] branch].
    destruct H as [[-> ->] | (choice & damage & _ & _ & _ & [[-> Hk] | [-> Hk]])].
    + discriminate.
    + intros [= <- <- <-]. split; [auto | discriminate].
    + destruct (threeMinutes <? since); [| discriminate].
      intros [= <- <- <-]. split; discriminate.
  - destruct (threeMinutes <? since); [| discriminate].
    intros [= <- <- <-]. split; discriminate.
  - pose proof (onEnemyActionTick_effect cfg b) as H.
    destruct (onEnemyActionTick cfg b) as [[b1 out1] branch].
    destruct H as [_ [[-> Hk] | ->]].
    + intros [= <- <- <-]. split; [discriminate | auto].
    + destruct (threeMinutes <? since); [| discriminate].
      intros [= <- <- <-]. split; discriminate.
Qed.

(** The towers of a side are two guard towers and the King Tower, and
    [isKingTowerDestroyed] tests the hit points of the King Tower. *)
Lemma side_king towers :
  side towers ->
  exists guard1 guard2 king,
    towers = [guard1; guard2; king] /\
    Type_ guard1 = "Guard Tower 1"%string /\
    Type_ guard2 = "Guard Tower 2"%string /\
    Type_ king = "King Tower"%string /\
    isKingTowerDestroyed towers = (HP king <=? 0).
Proof.
  unfold side, targetOrder.
  destruct towers as [| g1 [| g2 [| k [| extra rest]]]]; try discriminate.
  intros [= H1 H2 H3]. exists g1, g2, k.
  split; [reflexivity |]. split; [exact H1 |]. split; [exact H2 |].
  split; [exact H3 |].
  unfold isKingTowerDestroyed. simpl. rewrite H1, H2, H3. simpl.
  now rewrite orb_false_r.
Qed.

(** C4. A battle returns with the player's win only when the hit points of
    the opponent's King Tower are at most 0, and with the opponent's win only
    when those of the player's King Tower are at most 0. On the towers of a
    side [isKingTowerDestroyed] holds exactly when the hit points of the
    King Tower are at most 0, so with both guard towers at 0 and the King
    Tower above 0 it does not hold, and an iteration that ends in such a
    state does not return a win over that side. *)
Theorem win_only_when_king_tower_down cfg :
  (forall r schedule b' out o,
     playGame cfg r schedule = (b', out, Some o) ->
     (o = PlayerWin ->
      exists guard1 guard2 king,
        EnemyTowers (state b') = [guard1; guard2; king] /\
        Type_ king = "King Tower"%string /\ HP king <= 0) /\
     (o = OpponentWin ->
      exists guard1 guard2 king,
        PlayerTowers (state b') = [guard1; guard2; king] /\
        Type_ king = "King Tower"%string /\ HP king <= 0))
  /\ (forall towers, side towers ->
        exists guard1 guard2 king,
          towers = [guard1; guard2; king] /\
          Type_ king = "King Tower"%string /\
          (isKingTowerDestroyed towers = true <-> HP king <= 0))
  /\ (forall guard1 guard2 king,
        side [guard1; guard2; king] ->
        HP guard1 = 0 -> HP guard2 = 0 -> 0 < HP king ->
        isKingTowerDestroyed [guard1; guard2; king] = false)
  /\ (forall b ev since b' out o,
        iteration cfg b ev since = (b', out, o) ->
        (isKingTowerDestroyed (EnemyTowers (state b')) = false ->
         o <> Some PlayerWin) /\
        (isKingTowerDestroyed (PlayerTowers (state b')) = false ->
         o <> Some OpponentWin)).
Proof.
  split; [| split; [| split]].
  - intros r schedule b' out o Hrun.
    pose proof (playGame_wellFormed cfg r schedule) as Hwf.
    rewrite Hrun in Hwf. simpl in Hwf. destruct Hwf as (Hp & He & _).
    destruct (run_returns cfg (initialBattle r) schedule b' out o
                initialState_wellFormed Hrun)
      as (b0 & ev & since & out0 & _ & Hit).
    destruct (iteration_win _ _ _ _ _ _ _ Hit) as [Hpw How].
    split; intros Ho.
    + destruct (side_king _ He) as (g1 & g2 & k & Heq & _ & _ & Hk & Hd).
      exists g1, g2, k. rewrite Hpw in Hd by exact Ho.
      split; [exact Heq |]. split; [exact Hk |]. apply Z.leb_le. auto.
    + destruct (side_king _ Hp) as (g1 & g2 & k & Heq & _ & _ & Hk & Hd).
      exists g1, g2, k. rewrite How in Hd by exact Ho.
      split; [exact Heq |]. split; [exact Hk |]. apply Z.leb_le. auto.
  - intros towers Hside.
    destruct (side_king _ Hside) as (g1 & g2 & k & Heq & _ & _ & Hk & Hd).
    exists g1, g2, k. split; [exact Heq |]. split; [exact Hk |].
    rewrite Hd. apply Z.leb_le.
  - intros g1 g2 k Hside _ _ Hpos.
    destruct (side_king _ Hside) as (g1' & g2' & k' & [= <- <- <-] & _ & _ & _ & ->).
    now apply Z.leb_gt.
  - intros b ev since b' out o Hit. split; intros Hk ->;
      destruct (iteration_win _ _ _ _ _ _ _ Hit) as [Hpw How];
      [rewrite Hpw in Hk | rewrite How in Hk]; auto; discriminate.
Qed.

(** ** Paying for a card *)

(** C6. When the opponent policy plays a card (it returns a damage above 0)
    the iteration takes 3 from the opponent's pool, whatever card was played
    and whatever it costs in the catalogue, and leaves the player's pool
    alone; a play of the player that is not rejected takes the cost of the
    selected card from the player's pool and leaves the opponent's pool
    alone. On pools that hold a whole number of units the binary64
    subtraction is exact. *)
Theorem elixir_deductions cfg b since :
  (forall damage cardCrit towerCrit action r',
     isKingTowerDestroyed (PlayerTowers (state b)) = false ->
     simulateEnemyTurn (enemyDeck cfg) (EnemyElixir (state b))
       (opponentName cfg) (PlayerTowers (state b)) (rand b)
     = ((damage, cardCrit, towerCrit, action), r') ->
     0 < damage ->
     let st := state (iteration cfg b EnemyActionTick since).1.1 in
     EnemyElixir st = (EnemyElixir (state b) - 3)%float /\
     PlayerElixir st = PlayerElixir (state b) /\
     (forall n, elixirLevel (EnemyElixir (state b)) n ->
                3 <= n /\ elixirLevel (EnemyElixir st) (n - 3)))
  /\ (forall input choice,
        validChoice cfg input choice ->
        let cost := ElixirCost (playerStats (selected cfg choice)) in
        (PlayerElixir (state b) <? GoFloat.of_int cost)%float = false ->
        let st := state (iteration cfg b (InputChan input) since).1.1 in
        PlayerElixir st = (PlayerElixir (state b) - GoFloat.of_int cost)%float /\
        EnemyElixir st = EnemyElixir (state b) /\
        (forall n, elixirLevel (PlayerElixir (state b)) n ->
                   cost <= n /\ elixirLevel (PlayerElixir st) (n - cost))).
Proof.
  split.
  - intros damage cardCrit towerCrit action r' Hk Hsim Hpos st.
    assert (EnemyElixir st = (EnemyElixir (state b) - 3)%float /\
            PlayerElixir st = PlayerElixir (state b)) as [He Hp].
    { subst st. rewrite iteration_state. simpl. unfold onEnemyActionTick.
      rewrite Hk, Hsim. simpl. rewrite (proj2 (Z.ltb_lt _ _) Hpos).
      destruct (applyDamage (PlayerTowers (state b)) damage) as [towers result].
      simpl. destruct (isKingTowerDestroyed towers); auto. }
    split; [exact He |]. split; [exact Hp |]. intros n Hn. rewrite He.
    destruct (simulateEnemyTurn_plays _ _ _ _ _ _ _ _ _ _ Hsim Hpos) as [Hlt _].
    now apply enemy_spend_level.
  - intros input choice Hvalid cost Hlt st.
    assert (PlayerElixir st = (PlayerElixir (state b) - GoFloat.of_int cost)%float /\
            EnemyElixir st = EnemyElixir (state b)) as [Hp He].
    { subst st cost. rewrite iteration_state. simpl.
      rewrite (onInput_valid cfg b input choice Hvalid). simpl. rewrite Hlt.
      destruct (calculateDamage _ _ _ _) as [[[damage cardCrit] towerCrit] r'].
      destruct (applyDamage (EnemyTowers (state b)) damage) as [towers result].
      simpl. destruct (isKingTowerDestroyed towers); auto. }
    split; [exact Hp |]. split; [exact He |]. intros n Hn. rewrite Hp.
    apply player_spend_level; auto. apply playerStats_cost.
Qed.

(** ** Choices *)








(** ** Surrender *)

(** C9 on the code: the reader sends a line that trims to ["0"] on
    [inputChan] before it sends on [quitChan]. The engine handles the first
    message as a choice, reports it as invalid and goes on; the second makes
    it record the surrender, stop both tickers and return. In every schedule
    that the reader can feed, a surrender signal is thus accompanied by the
    input event ["0"]. *)
Theorem surrender_line_is_input_first line rest cfg b since :
  TrimSpace line = "0"%string ->
  reader (line :: rest) = [ToInputChan "0"; ToQuitChan]
  /\ iteration cfg b (InputChan "0") since
     = (b, [Println (invalidChoice cfg)], None)
  /\ iteration cfg b QuitChan since
     = (mkBattle (state b) (Actions b ++ ["Player surrendered"%string]) (rand b)
          false false,
        [Println "You surrendered!"], Some Surrender)
  /\ (forall schedule since',
        fromReader (line :: rest) schedule ->
        (QuitChan, since') ∈ schedule ->
        exists since'', (InputChan "0", since'') ∈ schedule).
Proof.
  intros Htrim. split; [| split; [| split]].
  - simpl. now rewrite Htrim.
  - reflexivity.
  - reflexivity.
  - intros schedule since' Hfrom Hquit. unfold fromReader in Hfrom.
    simpl in Hfrom. rewrite Htrim in Hfrom. simpl in Hfrom.
    set (f := fun '(ev, _) => delivered ev : option Message) in *.
    assert (ToQuitChan ∈ omap f schedule) as Hq.
    { apply list_elem_of_omap. exists (QuitChan, since'). auto. }
    assert (ToInputChan "0" ∈ omap f schedule) as Hi.
    { destruct Hfrom as [k Hk].
      destruct (omap f schedule) as [| m1 [| m2 ms]]; simpl in Hk.
      - inversion Hq.
      - injection Hk as <- _. apply list_elem_of_singleton in Hq. discriminate.
      - injection Hk as <- _. left. }
    apply list_elem_of_omap in Hi as ([ev since''] & Hin & Hev).
    exists since''. destruct ev; simpl in Hev; try discriminate.
    now injection Hev as ->.
Qed.


(** ** The replay log and the end of the loop *)

Lemma selectCase_log cfg b ev :
  let '(b', _, branch) := selectCase cfg b ev in
  exists added,
    Actions b' = Actions b ++ added /\
    match branch with
    | Return o =>
        last added = Some (outcomeEntry o) /\
        elixirTick b' = false /\ enemyActionTick b' = false
    | _ => elixirTick b' = elixirTick b /\ enemyActionTick b' = enemyActionTick b
    end.
Proof.
  destruct ev as [| input | |]; simpl.
  - exists ["Player surrendered"%string]. auto.
  - unfold onInput. destruct (parseInt input) as [choice err].
    destruct (isError err || (choice <? 1) || (len (CurrentDeck cfg) <? choice)).
    { exists []. rewrite app_nil_r. auto. }
    destruct (_ <? _)%float.
    { exists []. rewrite app_nil_r. auto. }
    destruct (calculateDamage _ _ _ _) as [[[damage cardCrit] towerCrit] r'].
    destruct (applyDamage _ damage) as [towers result]. simpl.
    destruct (isKingTowerDestroyed towers); simpl.
    + eexists [_; _]. rewrite <- app_assoc. simpl. auto.
    + eexists [_]. auto.
  - exists []. rewrite app_nil_r. auto.
  - unfold onEnemyActionTick.
    destruct (isKingTowerDestroyed (PlayerTowers (state b))); simpl.
    { exists []. rewrite app_nil_r. auto. }
    destruct (simulateEnemyTurn _ _ _ _ _)
      as [[[[damage cardCrit] towerCrit] action] r'].
    destruct (0 <? damage).
    + destruct (applyDamage _ damage) as [towers result]. simpl.
      destruct (isKingTowerDestroyed towers); simpl.
      * eexists [_; _]. rewrite <- app_assoc. simpl. auto.
      * eexists [_]. auto.
    + simpl. destruct (isKingTowerDestroyed (PlayerTowers (state b))); simpl.
      * eexists [_]. auto.
      * exists []. rewrite app_nil_r. auto.
Qed.

Lemma iteration_log cfg b ev since :
  let '(b', _, o) := iteration cfg b ev since in
  exists added,
    Actions b' = Actions b ++ added /\
    match o with
    | Some o =>
        last added = Some (outcomeEntry o) /\
        elixirTick b' = false /\ enemyActionTick b' = false
    | None => elixirTick b' = elixirTick b /\ enemyActionTick b' = enemyActionTick b
    end.
Proof.
  unfold iteration. pose proof (selectCase_log cfg b ev) as H.
  destruct (selectCase cfg b ev) as [[b1 out1] branch].
  destruct H as (added & Hlog & Hend). destruct branch.
  - exists added. auto.
  - destruct (threeMinutes <? since).
    + exists (added ++ ["Match ended in a draw"%string]). simpl.
      rewrite Hlog, <- app_assoc, last_snoc. auto.
    + exists added. auto.
  - exists added. auto.
Qed.

Lemma run_log cfg b schedule :
  let '(b', _, o) := run cfg b schedule in
  exists added,
    Actions b' = Actions b ++ added /\
    match o with
    | Some o =>
        last added = Some (outcomeEntry o) /\
        elixirTick b' = false /\ enemyActionTick b' = false
    | None => elixirTick b' = elixirTick b /\ enemyActionTick b' = enemyActionTick b
    end.
Proof.
  revert b. induction schedule as [| [ev since] schedule IH]; intros b; simpl.
  - exists []. rewrite app_nil_r. auto.
  - pose proof (iteration_log cfg b ev since) as H.
    destruct (iteration cfg b ev since) as [[b1 out1] [o1 |]].
    + exact H.
    + destruct H as (added1 & Hlog1 & Ht1 & Ht2).
      specialize (IH b1). destruct (run cfg b1 schedule) as [[b2 out2] o2].
      destruct IH as (added2 & Hlog2 & Hend).
      exists (added1 ++ added2). rewrite Hlog2, Hlog1, <- app_assoc.
      split; [reflexivity |]. destruct o2 as [o2 |].
      * destruct Hend as (Hlast & ? & ?). split; [| auto].
        rewrite last_app, Hlast. reflexivity.
      * destruct Hend as [? ?]. split; congruence.
Qed.

(** X1. The replay log only grows: on every schedule, from every battle, the
    log of the loop starts with the log it had. *)
Theorem replay_log_append_only cfg b schedule :
  Actions b `prefix_of` Actions (run cfg b schedule).1.1.
Proof.
  pose proof (run_log cfg b schedule) as H.
  destruct (run cfg b schedule) as [[b' out] o]. simpl.
  destruct H as (added & -> & _). now exists added.
Qed.

(** X2. When the loop returns, the last entry of the replay log is the entry
    of the outcome and both tickers are stopped; while the loop has not
    returned both tickers are running. *)
Theorem outcome_recorded_last cfg r schedule :
  let '(b', _, o) := playGame cfg r schedule in
  match o with
  | Some o =>
      last (Actions b') = Some (outcomeEntry o) /\
      elixirTick b' = false /\ enemyActionTick b' = false
  | None => elixirTick b' = true /\ enemyActionTick b' = true
  end.
Proof.
  unfold playGame. pose proof (run_log cfg (initialBattle r) schedule) as H.
  destruct (run cfg (initialBattle r) schedule) as [[b' out] o].
  destruct H as (added & -> & Hend). destruct o as [o |]; simpl in *.
  - destruct Hend as (Hlast & ? & ?). auto.
  - exact Hend.
Qed.


(** No case of the [select] returns a draw: the draw comes from the check
    after the cases. *)
Lemma selectCase_not_draw cfg b ev :
  (selectCase cfg b ev).2 <> Return Draw.
Proof.
  destruct ev as [| input | |]; simpl; try discriminate.
  - pose proof (onInput_effect cfg b input) as H.
    destruct (onInput cfg b input) as [[b' out] branch]. simpl.
    destruct H as [[_ ->] | (? & ? & _ & _ & _ & [[-> _] | [-> _]])];
      discriminate.
  - pose proof (onEnemyActionTick_effect cfg b) as H.
    destruct (onEnemyActionTick cfg b) as [[b' out] branch]. simpl.
    destruct H as [_ [[-> _] | ->]]; discriminate.
Qed.

(** X3. An iteration returns a draw exactly when its case falls through to
    the check and more than three minutes have elapsed. A regeneration tick
    always falls through, so it ends the battle in a draw exactly when more
    than three minutes have elapsed; a line that is not a valid choice never
    reaches the check, however much time has elapsed. *)
Theorem draw_exactly_on_fall_through cfg b ev since :
  ((iteration cfg b ev since).2 = Some Draw <->
   (selectCase cfg b ev).2 = FallThrough /\ threeMinutes < since)
  /\ ((iteration cfg b ElixirTick since).2 = Some Draw <-> 180000000000 < since)
  /\ (forall input,
        (forall choice, ~ validChoice cfg input choice) ->
        (iteration cfg b (InputChan input) since).2 = None).
Proof.
  assert (forall ev',
             (iteration cfg b ev' since).2 = Some Draw <->
             (selectCase cfg b ev').2 = FallThrough /\ threeMinutes < since)
    as Hiff.
  { intros ev'. unfold iteration.
    pose proof (selectCase_not_draw cfg b ev') as Hnd.
    destruct (selectCase cfg b ev') as [[b1 out1] branch]. simpl in *.
    destruct branch as [| | o]; simpl.
    - split; [discriminate | intros [? _]; discriminate].
    - destruct (Z.ltb_spec threeMinutes since); simpl.
      + split; auto.
      + split; [discriminate | intros [_ ?]; lia].
    - split; [intros [= ->]; contradiction | intros [? _]; discriminate]. }
  split; [apply Hiff |]. split.
  - rewrite Hiff. simpl. unfold threeMinutes. split; [intros [_ ?]; lia | auto].
  - intros input Hinv. unfold iteration. simpl.
    now rewrite (onInput_invalid cfg b input Hinv).
Qed.

(** ** Damage in the loop *)

Lemma to_int_range f :
  platformOk -> GoInt.in_range (GoFloat.to_int unrepresentable f).
Proof.
  intros Hok. unfold GoFloat.to_int. destruct (GoFloat.trunc f) as [z |]; [| apply Hok].
  destruct (Z.leb_spec (- 2 ^ 63) z); simpl; [| apply Hok].
  destruct (Z.ltb_spec z (2 ^ 63)); [| apply Hok].
  split; assumption.
Qed.

Lemma calculateDamage_range card stats targetTowers r :
  platformOk ->
  1 <= (calculateDamage card stats targetTowers r).1.1.1 < 2 ^ 63.
Proof.
  intros Hok. rewrite calculateDamage_unfold. simpl. unfold totalDamage.
  rewrite max_spec.
  pose proof (to_int_range
                (GoFloat.of_int
                   (GoInt.add
                      (GoInt.add (BaseDamage stats)
                         (GoInt.mul (GoInt.sub (Level card) 1) 10))
                      (jitterDraw r))
                 * critMultiplier (cardDraw r <? CritChance stats)
                     (towerDraw r <? firstTowerCrit 0.05 targetTowers))%float
                Hok) as [_ Hhi].
  lia.
Qed.

Lemma simulateEnemyTurn_range deck enemyElixir name targetTowers r :
  platformOk ->
  let damage := (simulateEnemyTurn deck enemyElixir name targetTowers r).1.1.1.1 in
  damage = 0 \/ 1 <= damage < 2 ^ 63.
Proof.
  intros Hok. unfold simulateEnemyTurn.
  destruct ((enemyElixir <? 3)%float || (len deck =? 0)); [left; reflexivity |].
  destruct (Intn (len deck) r) as [i r1].
  pose proof (calculateDamage_range (index deck i) (enemyStats (index deck i))
                targetTowers r1 Hok) as H.
  destruct (calculateDamage _ _ _ _) as [[[damage cardCrit] towerCrit] r2].
  right. exact H.
Qed.


Lemma damagedHP_bounds hp damage :
  0 < hp -> 0 <= damage < 2 ^ 63 ->
  0 <= damagedHP hp damage <= hp /\ (1 <= damage -> damagedHP hp damage < hp).
Proof.
  intros Hhp Hd. rewrite damagedHP_max. unfold GoInt.sub.
  pose proof (wrap_le (hp - damage) ltac:(lia)). lia.
Qed.

(** [applyDamage] on the towers of a side, case by case. *)
Lemma applyDamage_side_cases guard1 guard2 king damage :
  Type_ guard1 = "Guard Tower 1"%string ->
  Type_ guard2 = "Guard Tower 2"%string ->
  Type_ king = "King Tower"%string ->
  applyDamage [guard1; guard2; king] damage
  = if 0 <? HP guard1 then
      hitTower [guard1; guard2; king] 0 guard1 damage
    else if 0 <? HP guard2 then
      hitTower [guard1; guard2; king] 1 guard2 damage
    else if 0 <? HP king then
      hitTower [guard1; guard2; king] 2 king damage
    else ([guard1; guard2; king], "No towers left"%string).
Proof.
  intros H1 H2 H3. unfold applyDamage, targetOrder. simpl.
  rewrite H1, H2, H3. simpl.
  destruct (0 <? HP guard1); [reflexivity |].
  destruct (0 <? HP guard2); [reflexivity |].
  destruct (0 <? HP king); reflexivity.
Qed.

Lemma applyDamage_towersOk towers damage :
  towersOk towers -> 0 <= damage < 2 ^ 63 ->
  towersOk (applyDamage towers damage).1.
Proof.
  intros (g1 & g2 & k & -> & T1 & T2 & T3 & M1 & M2 & M3 & B1 & B2 & B3 & O1 & O2) Hd.
  rewrite (applyDamage_side_cases g1 g2 k damage T1 T2 T3).
  destruct (Z.ltb_spec 0 (HP g1)) as [A1 | A1];
    [| destruct (Z.ltb_spec 0 (HP g2)) as [A2 | A2];
       [| destruct (Z.ltb_spec 0 (HP k)) as [A3 | A3]]]; simpl.
  - destruct (damagedHP_bounds (HP g1) damage A1 Hd) as [Hb _].
    destruct (O1 A1) as [? ?].
    exists (setHP g1 (damagedHP (HP g1) damage)), g2, k.
    repeat split; simpl; try assumption; intros; lia.
  - destruct (damagedHP_bounds (HP g2) damage A2 Hd) as [Hb _].
    pose proof (O2 A2).
    exists g1, (setHP g2 (damagedHP (HP g2) damage)), k.
    repeat split; simpl; try assumption; intros; lia.
  - destruct (damagedHP_bounds (HP k) damage A3 Hd) as [Hb _].
    exists g1, g2, (setHP k (damagedHP (HP k) damage)).
    repeat split; simpl; try assumption; intros; lia.
  - exists g1, g2, k.
    repeat split; simpl; try assumption; intros; lia.
Qed.



Lemma onInput_towers cfg b input :
  platformOk ->
  let st' := state (onInput cfg b input).1.1 in
  PlayerTowers st' = PlayerTowers (state b) /\
  (EnemyTowers st' = EnemyTowers (state b) \/
   exists damage,
     1 <= damage < 2 ^ 63 /\
     EnemyTowers st' = (applyDamage (EnemyTowers (state b)) damage).1).
Proof.
  intros Hok.
  destruct (validChoice_decide cfg input) as [[choice Hvalid] | Hinvalid].
  - rewrite (onInput_valid cfg b input choice Hvalid).
    destruct (_ <? _)%float; [simpl; auto |].
    pose proof (calculateDamage_range (selected cfg choice)
                  (playerStats (selected cfg choice)) (EnemyTowers (state b))
                  (rand b) Hok) as Hrange.
    destruct (calculateDamage _ _ _ _) as [[[damage cardCrit] towerCrit] r'].
    destruct (applyDamage (EnemyTowers (state b)) damage) as [towers result] eqn:Ha.
    simpl in *. destruct (isKingTowerDestroyed towers); simpl;
      (split; [reflexivity | right; exists damage; rewrite Ha; auto]).
  - rewrite (onInput_invalid cfg b input Hinvalid). simpl. auto.
Qed.

Lemma onEnemyActionTick_towers cfg b :
  platformOk ->
  let st' := state (onEnemyActionTick cfg b).1.1 in
  EnemyTowers st' = EnemyTowers (state b) /\
  (PlayerTowers st' = PlayerTowers (state b) \/
   exists damage,
     1 <= damage < 2 ^ 63 /\
     PlayerTowers st' = (applyDamage (PlayerTowers (state b)) damage).1).
Proof.
  intros Hok. pose proof (onEnemyActionTick_effect cfg b) as H.
  destruct (onEnemyActionTick cfg b) as [[b' out] branch]. simpl.
  destruct H as [[-> | (damage & cc & tc & action & r' & _ & Hsim & Hpos & ->)] _];
    [auto |].
  simpl. split; [reflexivity | right]. exists damage. split; [| reflexivity].
  pose proof (simulateEnemyTurn_range (enemyDeck cfg) (EnemyElixir (state b))
                (opponentName cfg) (PlayerTowers (state b)) (rand b) Hok) as Hr.
  rewrite Hsim in Hr. simpl in Hr. lia.
Qed.

Lemma selectCase_towersOk cfg b ev :
  platformOk ->
  towersOk (PlayerTowers (state b)) /\ towersOk (EnemyTowers (state b)) ->
  let st' := state (selectCase cfg b ev).1.1 in
  towersOk (PlayerTowers st') /\ towersOk (EnemyTowers st').
Proof.
  intros Hok [Hp He]. destruct ev as [| input | |]; simpl; auto.
  - destruct (onInput_towers cfg b input Hok) as [-> [-> | (d & Hd & ->)]];
      split; auto. apply applyDamage_towersOk; [exact He | lia].
  - destruct (onEnemyActionTick_towers cfg b Hok) as [-> [-> | (d & Hd & ->)]];
      split; auto. apply applyDamage_towersOk; [exact Hp | lia].
Qed.

Lemma initialTowers_towersOk : towersOk initialTowers.
Proof.
  exists (mkTower "Guard Tower 1" 1000 300 100 0.05 1000),
    (mkTower "Guard Tower 2" 1000 300 100 0.05 1000),
    (mkTower "King Tower" 2000 500 300 0.1 2000).
  repeat split; simpl; lia.
Qed.

Lemma run_towersOk cfg b schedule :
  platformOk ->
  towersOk (PlayerTowers (state b)) /\ towersOk (EnemyTowers (state b)) ->
  let st' := state (run cfg b schedule).1.1 in
  towersOk (PlayerTowers st') /\ towersOk (EnemyTowers st').
Proof.
  intros Hok. revert b.
  induction schedule as [| [ev since] schedule IH]; intros b Hb; simpl.
  - exact Hb.
  - pose proof (selectCase_towersOk cfg b ev Hok Hb) as Hi.
    simpl in Hi. rewrite <- (iteration_state cfg b ev since) in Hi.
    destruct (iteration cfg b ev since) as [[b' out] [o |]]; simpl in *.
    + exact Hi.
    + specialize (IH b' Hi).
      destruct (run cfg b' schedule) as [[b'' out'] o']. exact IH.
Qed.

(** X4. In every battle, whatever the schedule and the draws, the hit
    points of every tower of either side stay between 0 and the tower's
    maximum, provided the platform converts every number to an [int]. *)
Theorem tower_hit_points_bounded cfg r schedule :
  platformOk ->
  let st := state (playGame cfg r schedule).1.1 in
  forall tower, tower ∈ PlayerTowers st ++ EnemyTowers st ->
                0 <= HP tower <= MaxHP tower.
Proof.
  intros Hok st tower Hin.
  destruct (run_towersOk cfg (initialBattle r) schedule Hok
              (conj initialTowers_towersOk initialTowers_towersOk)) as [Hp He].
  fold (playGame cfg r schedule) in Hp, He. fold st in Hp, He.
  apply elem_of_app in Hin as [Hin | Hin];
    [destruct Hp as (g1 & g2 & k & Heq & _ & _ & _ & M1 & M2 & M3 & B1 & B2 & B3 & _)
    | destruct He as (g1 & g2 & k & Heq & _ & _ & _ & M1 & M2 & M3 & B1 & B2 & B3 & _)];
    rewrite Heq in Hin;
    repeat (apply elem_of_cons in Hin as [-> | Hin]; [lia |]); inversion Hin.
Qed.

(** X5. In every battle the towers of a side fall in the order Guard Tower
    1, Guard Tower 2, King Tower: while the first guard tower has hit points
    left the other two towers are undamaged, and while the second has hit
    points left the King Tower is undamaged. *)
Theorem towers_fall_in_order cfg r schedule :
  platformOk ->
  let st := state (playGame cfg r schedule).1.1 in
  forall towers, towers = PlayerTowers st \/ towers = EnemyTowers st ->
    exists guard1 guard2 king,
      towers = [guard1; guard2; king] /\
      (0 < HP guard1 -> HP guard2 = MaxHP guard2 /\ HP king = MaxHP king) /\
      (0 < HP guard2 -> HP king = MaxHP king).
Proof.
  intros Hok st towers Hside.
  destruct (run_towersOk cfg (initialBattle r) schedule Hok
              (conj initialTowers_towersOk initialTowers_towersOk)) as [Hp He].
  fold (playGame cfg r schedule) in Hp, He. fold st in Hp, He.
  assert (towersOk towers) as Hok' by (destruct Hside as [-> | ->]; assumption).
  destruct Hok' as (g1 & g2 & k & Heq & _ & _ & _ & M1 & M2 & M3 & _ & _ & _ & O1 & O2).
  exists g1, g2, k. split; [exact Heq |]. rewrite M2, M3. auto.
Qed.







(** ** The opponent policy *)

Lemma index_elem (deck : list Card) i :
  0 <= i < len deck -> index deck i ∈ deck.
Proof.
  intros Hi. unfold index, len in *.
  destruct (deck !! Z.to_nat i) as [card |] eqn:E.
  - simpl. eapply list_elem_of_lookup_2; eauto.
  - apply lookup_ge_None in E. lia.
Qed.

(** X7. [simulateEnemyTurn] skips the turn exactly when the elixir is below 3
    or the deck is empty: it then returns damage 0, no crit and the skip
    text, and draws nothing from the random source. Otherwise it plays a
    card of the deck, names it in the action text, and returns a damage of
    at least 1. *)
Theorem simulateEnemyTurn_skips_or_plays deck enemyElixir name targetTowers r :
  let '((damage, cardCrit, towerCrit, action), r') :=
    simulateEnemyTurn deck enemyElixir name targetTowers r in
  (damage = 0 <-> (enemyElixir <? 3)%float = true \/ deck = [])
  /\ (damage = 0 ->
      cardCrit = false /\ towerCrit = false /\ r' = r /\
      action = name +:+ " skipped turn (not enough elixir)")
  /\ (damage <> 0 ->
      1 <= damage /\
      exists card,
        card ∈ deck /\
        action = name +:+ " used " +:+ Name card +:+ " (Level "
                   +:+ GoInt.format (Level card) +:+ ")").
Proof.
  unfold simulateEnemyTurn.
  destruct (enemyElixir <? 3)%float eqn:Hlt; simpl.
  { split; [split; auto |]. split; [auto | intros H; contradiction]. }
  destruct (Z.eqb_spec (len deck) 0) as [Hlen | Hlen].
  { assert (deck = []) as -> by (destruct deck; [reflexivity | discriminate]).
    split; [split; auto |]. split; [auto | intros H; contradiction]. }
  pose proof (Intn_range (len deck) r ltac:(unfold len in *; lia)) as Hi.
  destruct (Intn (len deck) r) as [i r1]. simpl in Hi.
  pose proof (calculateDamage_unfold (index deck i) (enemyStats (index deck i))
                targetTowers r1) as Hcalc.
  destruct (calculateDamage _ _ _ _) as [[[damage cardCrit] towerCrit] r2].
  simpl in Hcalc. injection Hcalc as Hd _ _ _.
  assert (1 <= damage) as Hpos by (rewrite Hd; apply max_lower).
  split; [| split].
  - split; [lia |]. intros [H | ->]; [discriminate | unfold len in Hlen; simpl in Hlen; lia].
  - lia.
  - intros _. split; [exact Hpos |]. exists (index deck i).
    split; [now apply index_elem | reflexivity].
Qed.

(** ** The damage formula on small values *)

Lemma exactDamage_checked :
  forallb (fun k => exactDamage (Z.of_nat k - 64)) (seq 0 2113) = true.
Proof. vm_compute. reflexivity. Qed.

(** X8. For a base value plus jitter [x] between -64 and 2048 the damage is
    the greater of 1 and: [x] without a crit, [3x/2] rounded down with the
    card crit, [6x/5] rounded down with the tower crit, and with both crits
    [9x/5] rounded down or, only when [x] is a multiple of 5, one less than
    that. *)
Theorem totalDamage_exact damage randomFactor :
  let x := damage + randomFactor in
  -64 <= x <= 2048 ->
  totalDamage damage randomFactor false false = Z.max 1 x
  /\ totalDamage damage randomFactor true false = Z.max 1 (x * 3 / 2)
  /\ totalDamage damage randomFactor false true = Z.max 1 (x * 6 / 5)
  /\ (totalDamage damage randomFactor true true = Z.max 1 (x * 9 / 5)
      \/ (x mod 5 = 0 /\
          totalDamage damage randomFactor true true = Z.max 1 (x * 9 / 5 - 1))).
Proof.
  intros x Hx.
  assert (forall cardCrit towerCrit,
             totalDamage damage randomFactor cardCrit towerCrit
             = totalDamage x 0 cardCrit towerCrit) as Hsame.
  { intros. unfold totalDamage, GoInt.add. now rewrite Z.add_0_r. }
  rewrite !Hsame.
  pose proof exactDamage_checked as Hall. rewrite forallb_forall in Hall.
  specialize (Hall (Z.to_nat (x + 64))).
  rewrite in_seq in Hall. specialize (Hall ltac:(lia)).
  replace (Z.of_nat (Z.to_nat (x + 64)) - 64) with x in Hall by lia.
  unfold exactDamage in Hall.
  apply andb_prop in Hall as [Hall H4]. apply andb_prop in Hall as [Hall H3].
  apply andb_prop in Hall as [H1 H2].
  apply Z.eqb_eq in H1, H2, H3.
  split; [exact H1 |]. split; [exact H2 |]. split; [exact H3 |].
  apply orb_prop in H4 as [H4 | H4].
  - left. now apply Z.eqb_eq.
  - right. apply andb_prop in H4 as [Hm H4]. split; now apply Z.eqb_eq.
Qed.


(** ** Reading numbers *)


Lemma scanDigits_decimal s : Forall (fun c => isDecimal c = true) (scanDigits s).
Proof.
  induction s as [| c s IH]; simpl; [constructor |].
  destruct (isDecimal c) eqn:E; constructor; assumption.
Qed.


Ltac digit_codes :=
  repeat match goal with
         | |- context [Z.of_nat (code ?c)] =>
             let v := eval vm_compute in (Z.of_nat (code c)) in
             change (Z.of_nat (code c)) with v
         end.

(** The characters of a decimal number are decimal digits. *)
Lemma string_of_uint_digits d :
  scanDigits (NilEmpty.string_of_uint d)
  = list_ascii_of_string (NilEmpty.string_of_uint d).
Proof. induction d; simpl; [reflexivity | now rewrite IHd ..]. Qed.

Lemma digits_of_uint_acc d acc :
  fold_left (fun a c => a * 10 + (Z.of_nat (code c) - 48))
    (list_ascii_of_string (NilEmpty.string_of_uint d)) (Z.pos acc)
  = Z.pos (Pos.of_uint_acc d acc).
Proof.
  revert acc. induction d; intros acc; simpl; [reflexivity | ..];
    match goal with
    | |- fold_left _ _ ?a = Z.pos (Pos.of_uint_acc _ ?p) =>
        replace a with (Z.pos p) by (digit_codes; lia); apply IHd
    end.
Qed.

Lemma digits_of_uint d :
  digitsValue (list_ascii_of_string (NilEmpty.string_of_uint d))
  = Z.of_N (Pos.of_uint d).
Proof.
  unfold digitsValue. induction d; simpl; [reflexivity | exact IHd | ..];
    match goal with
    | |- fold_left _ _ ?a = Z.pos (Pos.of_uint_acc _ ?p) =>
        replace a with (Z.pos p) by (digit_codes; lia);
        apply digits_of_uint_acc
    end.
Qed.

(** The decimal digits of a positive number: a string that starts with a
    digit and whose value is the number. *)
Lemma string_of_pos p :
  exists c rest,
    NilEmpty.string_of_uint (Pos.to_uint p) = String c rest /\
    isDecimal c = true /\
    scanDigits (String c rest) = c :: list_ascii_of_string rest /\
    digitsValue (c :: list_ascii_of_string rest) = Z.pos p.
Proof.
  pose proof (Unsigned.to_uint_nonnil p) as Hnonnil.
  pose proof (string_of_uint_digits (Pos.to_uint p)) as Hscan.
  pose proof (digits_of_uint (Pos.to_uint p)) as Hval.
  rewrite Unsigned.of_to in Hval.
  pose proof (scanDigits_decimal (NilEmpty.string_of_uint (Pos.to_uint p))) as Hall.
  destruct (NilEmpty.string_of_uint (Pos.to_uint p)) as [| c rest] eqn:E.
  - exfalso. cbv in Hval. discriminate Hval.
  - exists c, rest. rewrite Hscan in Hall. simpl in Hall.
    inversion Hall; subst. auto.
Qed.

Lemma decimal_not_blank c :
  isDecimal c = true -> isNewline c = false /\ isSpace c = false /\ isSign c = false.
Proof.
  unfold isDecimal, isNewline, isSpace, isSign. intros H.
  apply andb_prop in H as [Hlo Hhi].
  apply Nat.leb_le in Hlo. apply Nat.leb_le in Hhi.
  repeat split;
    repeat match goal with
           | |- (_ || _) = false => apply orb_false_intro
           | |- (_ && _) = false => apply andb_false_intro2
           | |- Nat.eqb _ _ = false => apply Nat.eqb_neq; lia
           | |- Nat.leb _ _ = false => apply Nat.leb_gt; lia
           end.
Qed.

(** X10. Formatting and reading are inverse on [int]: [parseInt] reads every
    [int] back from its decimal text [%d], without an error. *)
Theorem parseInt_format n :
  GoInt.in_range n -> parseInt (GoInt.format n) = (n, None).
Proof.
  unfold GoInt.in_range, GoInt.format. intros Hn.
  destruct n as [| p | p]; [reflexivity | ..]; simpl.
  - destruct (string_of_pos p) as (c & rest & E & Hc & Hscan & Hval).
    assert (NilZero.string_of_uint (Pos.to_uint p) = String c rest) as ->.
    { unfold NilZero.string_of_uint. rewrite E.
      destruct (Pos.to_uint p); [discriminate | reflexivity ..]. }
    destruct (decimal_not_blank c Hc) as (Hnl & Hsp & Hsg).
    unfold parseInt, scanInt. simpl. rewrite Hnl, Hsp.
    unfold scanNumber. rewrite Hsg, Hscan. simpl.
    unfold ParseInt. rewrite Hval.
    destruct (Z.ltb_spec (2 ^ 63 - 1) (Z.pos p)); [lia | reflexivity].
  - destruct (string_of_pos p) as (c & rest & E & Hc & Hscan & Hval).
    assert (NilZero.string_of_uint (Pos.to_uint p) = String c rest) as ->.
    { unfold NilZero.string_of_uint. rewrite E.
      destruct (Pos.to_uint p); [discriminate | reflexivity ..]. }
    unfold parseInt, scanInt.
    change (SkipSpace (String "-" (String c rest)))
      with (inl (String "-" (String c rest)) : string + ScanError).
    unfold scanNumber. change (isSign "-") with true.
    change (Nat.eqb (code "-") 45) with true.
    cbv beta iota zeta. rewrite Hscan. cbv beta iota.
    unfold ParseInt. rewrite Hval. simpl andb. cbv iota.
    destruct (Z.ltb_spec (2 ^ 63) (Z.pos p)); [lia | reflexivity].
Qed.


(** X11. A number of the deck listing, typed as it is printed, is a valid
    choice and selects the card at that position of the deck (the length of
    a slice is an [int]). *)
Theorem listed_number_is_valid cfg k :
  len (CurrentDeck cfg) < 2 ^ 63 ->
  1 <= k <= len (CurrentDeck cfg) ->
  validChoice cfg (GoInt.format k) k /\
  CurrentDeck cfg !! Z.to_nat (k - 1) = Some (selected cfg k).
Proof.
  intros Hlen Hk. split.
  - split; [| exact Hk]. apply parseInt_format. unfold GoInt.in_range. lia.
  - unfold selected, index.
    destruct (CurrentDeck cfg !! Z.to_nat (k - 1)) as [card |] eqn:E;
      [reflexivity |].
    apply lookup_ge_None in E. unfold len in Hk. lia.
Qed.

(** ** Player tags *)

(** X12. [NormaliseTag] always yields a tag that starts with [#]; it leaves
    such a tag as it is, so normalising twice is normalising once, and a tag
    with and without its [#] normalise to the same tag. *)
Theorem NormaliseTag_normal tag :
  (exists rest, NormaliseTag tag = String "#" rest)
  /\ NormaliseTag (NormaliseTag tag) = NormaliseTag tag
  /\ NormaliseTag (String "#" tag) = String "#" tag
  /\ (NormaliseTag tag = tag \/ NormaliseTag tag = String "#" tag).
Proof.
  destruct tag as [| c tag]; simpl.
  - repeat split; eauto.
  - destruct (Ascii.eqb_spec c "#") as [-> | Hne]; simpl.
    + repeat split; eauto.
    + repeat split; eauto.
Qed.

Lemma prefix_cons a p b s :
  String.prefix (String a p) (String b s)
  = if Ascii.eqb a b then String.prefix p s else false.
Proof.
  simpl. destruct (ascii_dec a b) as [-> | Hne].
  - now rewrite Ascii.eqb_refl.
  - now rewrite (proj2 (Ascii.eqb_neq a b) Hne).
Qed.

Lemma prefix_nil s : String.prefix "" s = true.
Proof. destruct s; reflexivity. Qed.

Lemma escapeTag_cons c s :
  escapeTag (String c s)
  = if Ascii.eqb c "#" then String "%" (String "2" (String "3" (escapeTag s)))
    else String c (escapeTag s).
Proof.
  unfold escapeTag, Replace. cbn [replaceFrom]. rewrite prefix_cons, prefix_nil.
  rewrite Ascii.eqb_sym. destruct (Ascii.eqb c "#"); reflexivity.
Qed.

(** Escaping does not create an occurrence of [%23] that starts at a byte
    of the tag. *)
Lemma prefix_escapeTag c s :
  Ascii.eqb c "#" = false ->
  String.prefix "%23" (String c (escapeTag s)) = String.prefix "%23" (String c s).
Proof.
  intros _. rewrite !prefix_cons. destruct (Ascii.eqb "%" c); [| reflexivity].
  destruct s as [| a s]; [reflexivity |]. rewrite escapeTag_cons.
  destruct (Ascii.eqb_spec a "#") as [-> | _]; [reflexivity |].
  rewrite !prefix_cons. destruct (Ascii.eqb "2" a); [| reflexivity].
  destruct s as [| b s]; [reflexivity |]. rewrite escapeTag_cons.
  destruct (Ascii.eqb_spec b "#") as [-> | _]; [reflexivity |].
  rewrite !prefix_cons, !prefix_nil. reflexivity.
Qed.

Lemma unescape_escape s :
  occurs "%23" s = false -> unescapeTag (escapeTag s) = s.
Proof.
  induction s as [| c s IH]; [reflexivity |].
  cbn [occurs]. intros H. apply orb_false_elim in H as [Hhere Hrest].
  rewrite escapeTag_cons. destruct (Ascii.eqb_spec c "#") as [-> | Hne].
  - unfold unescapeTag, Replace in *. simpl. rewrite prefix_nil. simpl.
    f_equal. now apply IH.
  - unfold unescapeTag, Replace in *. cbn [replaceFrom].
    fold (Replace s "#" "%23"). fold (escapeTag s).
    rewrite prefix_escapeTag by (now apply Ascii.eqb_neq).
    rewrite Hhere. f_equal. unfold escapeTag, Replace. now apply IH.
Qed.

(** X13. Unescaping undoes escaping on a tag in which [%23] does not occur,
    so the search of the test mode finds exactly the first mock player whose
    tag is the tag that was typed; and there is then no match for a tag that
    no mock player has. *)
Theorem tag_round_trip playerTag tags :
  occurs "%23" playerTag = false ->
  unescapeTag (escapeTag playerTag) = playerTag
  /\ (playerTag ∈ tags -> findMock tags (escapeTag playerTag) = Some playerTag)
  /\ (playerTag ∉ tags -> findMock tags (escapeTag playerTag) = None).
Proof.
  intros Hno. pose proof (unescape_escape playerTag Hno) as Hround.
  split; [exact Hround |].
  induction tags as [| tag tags IH]; simpl.
  - split; [intros H; inversion H | reflexivity].
  - rewrite Hround. destruct (String.eqb_spec tag playerTag) as [-> | Hne].
    + split; [reflexivity | intros H; exfalso; apply H; left].
    + destruct IH as [IH1 IH2]. split.
      * intros H. apply elem_of_cons in H as [-> | H]; [contradiction | auto].
      * intros H. apply IH2. intros Hin. apply H. now right.
Qed.


(** ** Successive hits *)

(** The target stays the target while it has hit points left. *)
Lemma target_after_hit towers i t hp :
  target towers i t -> 0 < hp ->
  target (<[i := setHP t hp]> towers) i (setHP t hp).
Proof.
  intros (k & Hk & Hearlier & Hl & _ & _ & Hbefore) Hhp.
  assert (i < length towers)%nat as Hi by (eapply lookup_lt_Some; eauto).
  exists k. split; [exact Hk |]. split; [| split; [| split; [| split]]].
  - intros k' ty Hk' Hty u Hu Htu.
    apply list_elem_of_lookup in Hu as [j Hj].
    destruct (decide (j = i)) as [-> | Hne].
    + rewrite list_lookup_insert_eq in Hj by exact Hi. injection Hj as <-.
      simpl in Htu. subst ty.
      assert (k' = k) by (eapply NoDup_lookup; eauto using targetOrder_NoDup).
      lia.
    + rewrite list_lookup_insert_ne in Hj by auto.
      apply (Hearlier k' ty Hk' Hty u); [| exact Htu].
      eapply list_elem_of_lookup_2; eauto.
  - now apply list_lookup_insert_eq.
  - reflexivity.
  - exact Hhp.
  - intros j u Hj Hu. rewrite list_lookup_insert_ne in Hu by lia.
    apply (Hbefore j u Hj Hu).
Qed.

(** X14. Two hits on a tower that has hit points left after the first one
    add up: the towers are those after a single hit with the sum of the two
    amounts. *)
Theorem applyDamage_twice towers i t damage1 damage2 :
  target towers i t -> HP t < 2 ^ 63 ->
  0 <= damage1 < HP t -> 0 <= damage2 -> damage1 + damage2 < 2 ^ 63 ->
  (applyDamage (applyDamage towers damage1).1 damage2).1
  = (applyDamage towers (damage1 + damage2)).1.
Proof.
  intros Htarget Hhp H1 H2 Hsum.
  pose proof Htarget as (k & Hk & Hearlier & Hfirst).
  assert (damagedHP (HP t) damage1 = HP t - damage1) as Hleft.
  { rewrite damagedHP_max. unfold GoInt.sub.
    rewrite wrap_id by (unfold GoInt.in_range; lia). lia. }
  unfold applyDamage at 2.
  rewrite (applyDamageFrom_target _ _ _ k i t Hk Hearlier Hfirst).
  unfold hitTower at 1. simpl. rewrite Hleft.
  pose proof (target_after_hit towers i t (HP t - damage1) Htarget ltac:(lia))
    as (k' & Hk' & Hearlier' & Hfirst').
  unfold applyDamage.
  rewrite (applyDamageFrom_target _ _ _ k' i _ Hk' Hearlier' Hfirst').
  rewrite (applyDamageFrom_target _ _ _ k i t Hk Hearlier Hfirst).
  unfold hitTower. simpl. rewrite list_insert_insert_eq.
  f_equal. unfold setHP. simpl. f_equal.
  rewrite !damagedHP_max. unfold GoInt.sub. f_equal. f_equal. lia.
Qed.


(** ** The reader and the schedule *)

(** X15. The reader sends every line before the first surrender line as an
    input, then the surrender line as an input followed by the quit signal,
    and nothing after that: later lines are never read. Without a surrender
    line it sends every line as an input and never the quit signal. *)
Theorem reader_stops_at_surrender before :
  (forall line, line ∈ before -> TrimSpace line <> "0"%string) ->
  reader before = (fun line => ToInputChan (TrimSpace line)) <$> before
  /\ forall line after,
       TrimSpace line = "0"%string ->
       reader (before ++ line :: after)
       = ((fun line => ToInputChan (TrimSpace line)) <$> before)
           ++ [ToInputChan "0"; ToQuitChan].
Proof.
  induction before as [| l before IH]; intros Hno.
  - split; [reflexivity |]. intros line after Hline. simpl. now rewrite Hline.
  - assert (String.eqb (TrimSpace l) "0" = false) as Hl.
    { apply String.eqb_neq. apply Hno. left. }
    destruct IH as [IH1 IH2]; [intros line Hin; apply Hno; now right |].
    split.
    + simpl. now rewrite Hl, IH1.
    + intros line after Hline. simpl. rewrite Hl. f_equal. now apply IH2.
Qed.

(** The loop stops at its first return: the events that follow it change
    nothing; and a loop that has not returned goes on with the rest of the
    schedule from the battle it has reached. *)
Lemma run_app cfg b schedule1 schedule2 :
  run cfg b (schedule1 ++ schedule2)
  = match run cfg b schedule1 with
    | (b1, out1, Some o) => (b1, out1, Some o)
    | (b1, out1, None) =>
        let '(b2, out2, o) := run cfg b1 schedule2 in (b2, out1 ++ out2, o)
    end.
Proof.
  revert b. induction schedule1 as [| [ev since] schedule1 IH]; intros b; simpl.
  - destruct (run cfg b schedule2) as [[b2 out2] o]. reflexivity.
  - destruct (iteration cfg b ev since) as [[b1 out1] [o1 |]]; [reflexivity |].
    rewrite IH. destruct (run cfg b1 schedule1) as [[b2 out2] [o2 |]].
    + reflexivity.
    + destruct (run cfg b2 schedule2) as [[b3 out3] o3].
      now rewrite app_assoc.
Qed.

(** X16. Regeneration ticks alone, within the three minutes, fill the pools
    unit by unit: after [k] of them a pool of [n] units holds the lesser of
    [n + k] and 10 units, and neither the towers nor the replay log have
    changed. *)
Theorem regeneration_fills_pools cfg b k n m since :
  since <= threeMinutes ->
  elixirLevel (PlayerElixir (state b)) n ->
  elixirLevel (EnemyElixir (state b)) m ->
  let '(b', _, o) := run cfg b (repeat (ElixirTick, since) k) in
  elixirLevel (PlayerElixir (state b')) (Z.min (n + Z.of_nat k) 10)
  /\ elixirLevel (EnemyElixir (state b')) (Z.min (m + Z.of_nat k) 10)
  /\ PlayerTowers (state b') = PlayerTowers (state b)
  /\ EnemyTowers (state b') = EnemyTowers (state b)
  /\ Actions b' = Actions b
  /\ o = None.
Proof.
  intros Hsince. revert b n m.
  induction k as [| k IH]; intros b n m Hn Hm.
  - simpl. destruct Hn as [? ?], Hm as [? ?].
    repeat split; auto; rewrite ?Z.add_0_r, ?Z.min_l by lia; auto; lia.
  - cbn [repeat run]. unfold iteration. simpl.
    rewrite (proj2 (Z.ltb_ge _ _) Hsince).
    specialize (IH (setState b
                      (mkGameState (PlayerTowers (state b)) (EnemyTowers (state b))
                         (GoFloat.minFloat (PlayerElixir (state b) + 1) 10)
                         (GoFloat.minFloat (EnemyElixir (state b) + 1) 10)))
                   (Z.min (n + 1) 10) (Z.min (m + 1) 10)
                   (regenerate_level _ _ Hn) (regenerate_level _ _ Hm)).
    destruct (run cfg _ (repeat (ElixirTick, since) k)) as [[b' out] o].
    simpl in IH. destruct IH as (Hp & He & Tp & Te & Ha & Ho).
    destruct Hn as [Hn _], Hm as [Hm _].
    replace (Z.min (n + Z.of_nat (S k)) 10)
      with (Z.min (Z.min (n + 1) 10 + Z.of_nat k) 10) by lia.
    replace (Z.min (m + Z.of_nat (S k)) 10)
      with (Z.min (Z.min (m + 1) 10 + Z.of_nat k) 10) by lia.
    auto 10.
Qed.

End Platform.

(** ** Instances on concrete inputs *)

Lemma applyDamage_first_alive_witness :
  applyDamage initialTowers 200
  = ([ mkTower "Guard Tower 1" 800 300 100 0.05 1000;
       mkTower "Guard Tower 2" 1000 300 100 0.05 1000;
       mkTower "King Tower" 2000 500 300 0.1 2000 ],
     "Guard Tower 1 (HP now 800)"%string)
  /\ applyDamage destroyedTowers 200 = (destroyedTowers, "No towers left"%string).
Proof.
  split.
  - refine (proj1 (proj1 (applyDamage_first_alive initialTowers 200) 0%nat
                     (mkTower "Guard Tower 1" 1000 300 100 0.05 1000) _)).
    exists 0%nat. split; [reflexivity |]. split; [intros; lia |].
    split; [reflexivity |]. split; [reflexivity |]. split; [reflexivity |].
    intros; lia.
  - apply (proj2 (proj2 (applyDamage_first_alive destroyedTowers 200))).
    intros t Ht. repeat (apply elem_of_cons in Ht as [-> | Ht]; [simpl; lia |]).
    inversion Ht.
Defined.

Lemma applyDamage_frame_witness :
  0 <= 200 < 2 ^ 63
  /\ forall j t t',
       initialTowers !! j = Some t ->
       (applyDamage initialTowers 200).1 !! j = Some t' -> HP t' <= HP t.
Proof.
  assert (0 <= 200 < 2 ^ 63) as H by lia.
  split; [exact H |].
  exact (proj2 (proj2 (proj2 (applyDamage_frame initialTowers 200))) H).
Defined.

(** Counterexample to C10 as stated: on a negative amount the first guard
    tower gains hit points. *)
Lemma negative_damage_raises_hit_points :
  exists t t',
    initialTowers !! 0%nat = Some t /\
    (applyDamage initialTowers (-5)).1 !! 0%nat = Some t' /\
    HP t = 1000 /\ HP t' = 1005.
Proof. do 2 eexists. repeat split; reflexivity. Qed.


Lemma calculateDamage_tower_crit_witness :
  let card := mkCard "Knight" 1 in
  let r := [10; noCrit; between] in
  calculateDamage GoFloat.amd64 card (playerStats card) initialTowers r
  = ((200, false, false), [])
  /\ false = (towerDraw r <? 0.05)%float.
Proof.
  intros card r.
  assert (calculateDamage GoFloat.amd64 card (playerStats card) initialTowers r
          = ((200, false, false), [])) as H by reflexivity.
  split; [exact H |].
  refine (proj1 (calculateDamage_tower_crit GoFloat.amd64 _ _ _ _ _ _ _ _ H)
            0%nat (mkTower "Guard Tower 1" 1000 300 100 0.05 1000) _ _).
  - reflexivity.
  - exists 0%nat. split; [reflexivity |]. split; [intros; lia |].
    split; [reflexivity |]. split; [reflexivity |]. split; [reflexivity |].
    intros; lia.
Defined.

(** Counterexample to C5 as stated: no defending tower has hit points
    left, the draw 0.0625 is below the crit chance 0.1 of the King Tower, and
    the tower crit does not occur, because the draw is compared with 0.05. *)
Lemma tower_crit_default_is_not_king_chance :
  let card := mkCard "Knight" 1 in
  let r := [10; noCrit; between] in
  (forall t, t ∈ destroyedTowers -> HP t <= 0)
  /\ destroyedTowers !! 2%nat = Some (mkTower "King Tower" 0 500 300 0.1 2000)
  /\ (towerDraw r <? 0.1)%float = true
  /\ (calculateDamage GoFloat.amd64 card (playerStats card) destroyedTowers r).1
     = (200, false, false)
  /\ (firstTowerCrit 0.05 destroyedTowers <? 0.1)%float = true.
Proof.
  intros card r. split; [| repeat split; reflexivity].
  intros t Ht. repeat (apply elem_of_cons in Ht as [-> | Ht]; [simpl; lia |]).
  inversion Ht.
Qed.

Lemma elixir_pools_bounded_witness :
  validChoice sampleConfig "1" 1
  /\ (PlayerElixir (state lowElixir) <? GoFloat.of_int 5)%float = true
  /\ iteration GoFloat.amd64 sampleConfig lowElixir (InputChan "1") 0
     = (lowElixir, [NotEnoughElixir 5 2], None)
  /\ state (iteration GoFloat.amd64 sampleConfig lowElixir EnemyActionTick 0).1.1
     = state lowElixir.
Proof.
  assert (validChoice sampleConfig "1" 1) as Hvalid.
  { split; [reflexivity | unfold len; simpl; lia]. }
  split; [exact Hvalid |]. split; [reflexivity |].
  destruct (elixir_pools_bounded GoFloat.amd64 sampleConfig [] [])
    as (_ & _ & Hplayer & _ & Henemy).
  split.
  - exact (Hplayer lowElixir "1"%string 1 0 Hvalid eq_refl).
  - exact (Henemy lowElixir 0 eq_refl).
Defined.

Lemma win_only_when_king_tower_down_witness :
  let r := [10; noCrit; noCrit; 10; noCrit; noCrit; 10; noCrit; noCrit] in
  let schedule := [(InputChan "1", 1); (InputChan "1", 2); (InputChan "1", 3)] in
  let result := playGame GoFloat.amd64 veteranConfig r schedule in
  result.2 = Some PlayerWin
  /\ exists guard1 guard2 king,
       EnemyTowers (state result.1.1) = [guard1; guard2; king] /\
       Type_ king = "King Tower"%string /\ HP king <= 0.
Proof.
  intros r schedule result.
  assert (result = (result.1.1, result.1.2, Some PlayerWin)) as H
    by (vm_compute; reflexivity).
  split; [now rewrite H |].
  exact (proj1 (proj1 (win_only_when_king_tower_down GoFloat.amd64 veteranConfig)
                  r schedule _ _ _ H) eq_refl).
Defined.

Lemma elixir_deductions_witness :
  let r := [0; 10; noCrit; noCrit] in
  let b := initialBattle r in
  (simulateEnemyTurn GoFloat.amd64 sampleDeck 10 "Default Enemy" initialTowers r).1
  = (140, false, false, "Default Enemy used Giant (Level 1)"%string)
  /\ ElixirCost (enemyStats (mkCard "Giant" 1)) = 5
  /\ EnemyElixir (state (iteration GoFloat.amd64 sampleConfig b EnemyActionTick 0).1.1)
     = 7%float
  /\ validChoice sampleConfig "1" 1
  /\ PlayerElixir (state (iteration GoFloat.amd64 sampleConfig b (InputChan "1") 0).1.1)
     = 5%float.
Proof.
  intros r b. split; [reflexivity |]. split; [reflexivity |].
  assert (validChoice sampleConfig "1" 1) as Hvalid.
  { split; [reflexivity | unfold len; simpl; lia]. }
  destruct (elixir_deductions GoFloat.amd64 sampleConfig b 0) as [Henemy Hplayer].
  split; [| split; [exact Hvalid |]].
  - refine (proj1 (Henemy 140 false false
                     "Default Enemy used Giant (Level 1)"%string [] _ _ _));
      [reflexivity | reflexivity | lia].
  - exact (proj1 (Hplayer "1"%string 1 Hvalid eq_refl)).
Defined.



Lemma surrender_line_is_input_first_witness :
  reader (fun line => line) ["0"%string; "1"%string] = [ToInputChan "0"; ToQuitChan]
  /\ iteration GoFloat.amd64 sampleConfig lowElixir (InputChan "0") 0
     = (lowElixir,
        [Println "Invalid choice. Please select a number from 1 to 8"], None).
Proof.
  destruct (surrender_line_is_input_first GoFloat.amd64 (fun line => line)
              "0"%string ["1"%string] sampleConfig lowElixir 0 eq_refl)
    as (Hreader & Hinput & _).
  split; [exact Hreader | exact Hinput].
Defined.

(** The whole run on the line ["0"]: the invalid-choice report, then the
    surrender. *)
Example surrender_run :
  let schedule := [(InputChan "0", 1); (QuitChan, 2)] in
  let result := playGame GoFloat.amd64 sampleConfig [] schedule in
  fromReader (fun line => line) ["0"%string] schedule
  /\ result.1.2
     = [Println "Invalid choice. Please select a number from 1 to 8";
        Println "You surrendered!"]
  /\ Actions result.1.1 = ["Player surrendered"%string]
  /\ result.2 = Some Surrender.
Proof.
  intros schedule result. split; [exists []; reflexivity |].
  repeat split; reflexivity.
Qed.

(** ** Scenarios *)

(** A Knight of level 1 with jitter 0 and no crit takes 200 from the first
    guard tower. *)
Example knight_hits_guard_tower :
  let card := mkCard "Knight" 1 in
  let '((damage, _, _), _) :=
    calculateDamage GoFloat.amd64 card (playerStats card) initialTowers
      [10; noCrit; noCrit] in
  damage = 200
  /\ (applyDamage initialTowers damage).2 = "Guard Tower 1 (HP now 800)"%string.
Proof. split; reflexivity. Qed.

(** With both guard towers at 0 the King Tower takes the damage. *)
Example king_tower_hit_last :
  applyDamage
    [ mkTower "Guard Tower 1" 0 300 100 0.05 1000;
      mkTower "Guard Tower 2" 0 300 100 0.05 1000;
      mkTower "King Tower" 2000 500 300 0.1 2000 ] 300
  = ([ mkTower "Guard Tower 1" 0 300 100 0.05 1000;
       mkTower "Guard Tower 2" 0 300 100 0.05 1000;
       mkTower "King Tower" 1700 500 300 0.1 2000 ],
     "King Tower (HP now 1700)"%string).
Proof. reflexivity. Qed.

(** With 2 units of elixir the opponent skips its turn. *)
Example opponent_skips_turn :
  simulateEnemyTurn GoFloat.amd64 sampleDeck 2 "Default Enemy" initialTowers []
  = ((0, false, false,
      "Default Enemy skipped turn (not enough elixir)"%string), []).
Proof. reflexivity. Qed.

(** After 181 seconds a tick ends the battle in a draw. *)
Example draw_after_three_minutes :
  let result :=
    playGame GoFloat.amd64 sampleConfig [] [(ElixirTick, 181 * 1000000000)] in
  result.2 = Some Draw
  /\ Actions result.1.1 = ["Match ended in a draw"%string].
Proof. split; reflexivity. Qed.

(** ** Instances of the further properties *)

Lemma amd64_platformOk : platformOk GoFloat.amd64.
Proof. intros f. unfold GoFloat.amd64, GoInt.in_range. lia. Qed.

Lemma draw_exactly_on_fall_through_witness :
  (forall choice, ~ validChoice sampleConfig "abc" choice)
  /\ (iteration GoFloat.amd64 sampleConfig lowElixir (InputChan "abc")
        (200 * 1000000000)).2 = None
  /\ (iteration GoFloat.amd64 sampleConfig lowElixir ElixirTick
        (200 * 1000000000)).2 = Some Draw.
Proof.
  assert (forall choice, ~ validChoice sampleConfig "abc" choice) as Hinv.
  { intros choice [H _]. vm_compute in H. discriminate H. }
  destruct (draw_exactly_on_fall_through GoFloat.amd64 sampleConfig lowElixir
              ElixirTick (200 * 1000000000)) as (_ & Htick & Hinput).
  split; [exact Hinv |]. split; [exact (Hinput "abc"%string Hinv) |].
  apply Htick. lia.
Defined.

Lemma tower_hit_points_bounded_witness :
  platformOk GoFloat.amd64
  /\ forall tower,
       tower ∈ EnemyTowers
                 (state (playGame GoFloat.amd64 veteranConfig veteranTape
                           [(InputChan "1", 1); (InputChan "1", 2)]).1.1) ->
       0 <= HP tower <= MaxHP tower.
Proof.
  split; [exact amd64_platformOk |]. intros tower Hin.
  apply (tower_hit_points_bounded GoFloat.amd64 veteranConfig veteranTape
           [(InputChan "1", 1); (InputChan "1", 2)] amd64_platformOk tower).
  apply elem_of_app. now right.
Defined.

Lemma towers_fall_in_order_witness :
  platformOk GoFloat.amd64
  /\ exists guard1 guard2 king,
       EnemyTowers
         (state (playGame GoFloat.amd64 sampleConfig [10; noCrit; noCrit]
                   [(InputChan "1", 1)]).1.1)
       = [guard1; guard2; king] /\
       (0 < HP guard1 -> HP guard2 = MaxHP guard2 /\ HP king = MaxHP king) /\
       (0 < HP guard2 -> HP king = MaxHP king).
Proof.
  split; [exact amd64_platformOk |].
  apply (towers_fall_in_order GoFloat.amd64 sampleConfig [10; noCrit; noCrit]
           [(InputChan "1", 1)] amd64_platformOk).
  now right.
Defined.


Lemma simulateEnemyTurn_skips_or_plays_witness :
  (simulateEnemyTurn GoFloat.amd64 sampleDeck 2 "Default Enemy" initialTowers
     [3; 10; noCrit; noCrit]).2
  = [3; 10; noCrit; noCrit]
  /\ exists card,
       card ∈ sampleDeck /\
       "Default Enemy used Archers (Level 1)"%string
       = "Default Enemy" +:+ " used " +:+ Name card +:+ " (Level "
           +:+ GoInt.format (Level card) +:+ ")".
Proof.
  split.
  - pose proof (simulateEnemyTurn_skips_or_plays GoFloat.amd64 sampleDeck 2
                  "Default Enemy" initialTowers [3; 10; noCrit; noCrit]) as H.
    destruct (simulateEnemyTurn GoFloat.amd64 sampleDeck 2 "Default Enemy"
                initialTowers [3; 10; noCrit; noCrit])
      as [[[[damage cardCrit] towerCrit] action] r'].
    destruct H as (Hiff & Hskip & _). simpl.
    apply Hskip. apply Hiff. left. reflexivity.
  - pose proof (simulateEnemyTurn_skips_or_plays GoFloat.amd64 sampleDeck 10
                  "Default Enemy" initialTowers [3; 10; noCrit; noCrit]) as H.
    vm_compute simulateEnemyTurn in H.
    destruct H as (_ & _ & Hplay). apply Hplay. discriminate.
Defined.

Lemma totalDamage_exact_witness :
  -64 <= 100 + 0 <= 2048
  /\ totalDamage GoFloat.amd64 100 0 true false = 150
  /\ totalDamage GoFloat.amd64 100 0 false true = 120
  /\ (totalDamage GoFloat.amd64 100 0 true true = 180
      \/ ((100 + 0) mod 5 = 0 /\ totalDamage GoFloat.amd64 100 0 true true = 179)).
Proof.
  assert (-64 <= 100 + 0 <= 2048) as H by lia.
  split; [exact H |].
  exact (proj2 (totalDamage_exact GoFloat.amd64 100 0 H)).
Defined.


Lemma parseInt_format_witness :
  GoInt.in_range (-9223372036854775808)
  /\ parseInt "-9223372036854775808" = (-9223372036854775808, None).
Proof.
  assert (GoInt.in_range (-9223372036854775808)) as H
    by (unfold GoInt.in_range; lia).
  split; [exact H |]. exact (parseInt_format (-9223372036854775808) H).
Defined.

Lemma listed_number_is_valid_witness :
  validChoice sampleConfig "8" 8
  /\ CurrentDeck sampleConfig !! 7%nat = Some (mkCard "Minions" 1).
Proof.
  apply (listed_number_is_valid sampleConfig 8); unfold len; simpl; lia.
Defined.

Lemma tag_round_trip_witness :
  occurs "%23" "#PLAYER1" = false
  /\ escapeTag "#PLAYER1" = "%23PLAYER1"%string
  /\ findMock ["#PLAYER2"; "#PLAYER1"]%string (escapeTag "#PLAYER1")
     = Some "#PLAYER1"%string.
Proof.
  split; [reflexivity |]. split; [reflexivity |].
  apply (proj1 (proj2 (tag_round_trip "#PLAYER1" ["#PLAYER2"; "#PLAYER1"]%string
                         eq_refl))).
  right. left.
Defined.

Lemma applyDamage_twice_witness :
  (applyDamage (applyDamage initialTowers 300).1 500).1
  = (applyDamage initialTowers 800).1.
Proof.
  apply (applyDamage_twice initialTowers 0
           (mkTower "Guard Tower 1" 1000 300 100 0.05 1000) 300 500);
    simpl; try lia.
  exists 0%nat. split; [reflexivity |]. split; [intros; lia |].
  split; [reflexivity |]. split; [reflexivity |]. split; [reflexivity |].
  intros; lia.
Defined.

Lemma reader_stops_at_surrender_witness :
  reader (fun line => line) ["3"; "0"; "4"]%string
  = [ToInputChan "3"; ToInputChan "0"; ToQuitChan].
Proof.
  refine (proj2 (reader_stops_at_surrender (fun line => line) ["3"%string] _)
            "0"%string ["4"%string] eq_refl).
  intros line Hin. apply list_elem_of_singleton in Hin as ->. discriminate.
Defined.

Lemma regeneration_fills_pools_witness :
  let '(b', _, o) :=
    run GoFloat.amd64 sampleConfig lowElixir (repeat (ElixirTick, 0) 12) in
  elixirLevel (PlayerElixir (state b')) 10
  /\ elixirLevel (EnemyElixir (state b')) 10
  /\ Actions b' = [] /\ o = None.
Proof.
  pose proof (regeneration_fills_pools GoFloat.amd64 sampleConfig lowElixir 12 2 2 0
                ltac:(unfold threeMinutes; lia)
                ltac:(split; [lia | reflexivity])
                ltac:(split; [lia | reflexivity])) as H.
  destruct (run GoFloat.amd64 sampleConfig lowElixir (repeat (ElixirTick, 0) 12))
    as [[b' out] o].
  destruct H as (Hp & He & _ & _ & Ha & Ho). auto.
Defined.
